(** * Page routes of the book backend: listing and two-phase reordering

    A shallow embedding of [routes/pages] (listing, creating, deleting and
    reordering the pages of a book) over a model of the [Page] collection,
    and the properties of the reorder routine that the specification
    states. *)

From Stdlib Require Import ZArith Ascii DecimalString.
From stdpp Require Import gmap strings list sorting.

(** ** JSON values of a request body

    [req.body] is what the JSON body parser produced.  A number is
    modelled by its value, an integer: page positions are integers.
    Numbers are doubles, so the integers that occur are those a double
    holds, which is every integer up to 2^53 in size and fewer beyond. *)

#[warnings="-register-all"]
Inductive JsVal : Type :=
  | JUndefined
  | JNull
  | JBool (b : bool)
  | JNum (z : Z)
  | JStr (s : string)
  | JArr (items : list JsVal)
  | JObj (fields : list (string * JsVal)).

(** [!v] is [negb (truthy v)]. *)
Definition truthy (v : JsVal) : bool :=
  match v with
  | JUndefined | JNull => false
  | JBool b => b
  | JNum z => negb (z =? 0)%Z
  | JStr s => negb (String.eqb s "")
  | JArr _ | JObj _ => true
  end.

Definition isArray (v : JsVal) : bool :=
  match v with JArr _ => true | _ => false end.

(** An object is kept as the list of its members as the body wrote them.
    [has_own k fs]: whether [k] is among the keys. *)
Fixpoint has_own (k : string) (fs : list (string * JsVal)) : bool :=
  match fs with
  | [] => false
  | (k', _) :: fs' => String.eqb k k' || has_own k fs'
  end.

(** Own property [k] of an object, [undefined] when absent; of two members
    with the same key the later one counts. *)
Fixpoint field (k : string) (fs : list (string * JsVal)) : JsVal :=
  match fs with
  | [] => JUndefined
  | (k', v) :: fs' =>
      if has_own k fs' then field k fs'
      else if String.eqb k k' then v else JUndefined
  end.

(** [v.k] for the keys the routes read ([pageId], [newPageNumber], [_id]),
    none of which a string, number, boolean or array has of its own.
    [None] is the TypeError of reading a property of [null] or
    [undefined]. *)
Definition get_prop (v : JsVal) (k : string) : option JsVal :=
  match v with
  | JUndefined | JNull => None
  | JObj fs => Some (field k fs)
  | _ => Some JUndefined
  end.

(** Decimal digits of a natural number. *)
Definition digits (n : N) : string := NilZero.string_of_uint (N.to_uint n).

Fixpoint strip_zeros (rev_digits : string) : string :=
  match rev_digits with
  | String "0"%char s => strip_zeros s
  | s => s
  end.

(** The double nearest to a natural number, ties to the even significand:
    the number itself when a double holds it, [None] past the largest
    double. *)
Definition nearest_double (x : Z) : option Z :=
  let e := (Z.log2 x + 1 - 53)%Z in
  if (e <=? 0)%Z then Some x
  else
    let q := Z.shiftr x e in
    let r := (x - Z.shiftl q e)%Z in
    let half := Z.shiftl 1 (e - 1) in
    let q' := if (half <? r)%Z || ((r =? half)%Z && Z.odd q) then (q + 1)%Z else q in
    let y := Z.shiftl q' e in
    if (y <? 2 ^ 1024)%Z then Some y else None.

(** Whether the double nearest to [c] is the double [y]: [c] lies between
    the midpoints to the neighbours of [y], the midpoints included when the
    significand of [y] is even.  Distances are scaled by 4 to stay in the
    integers. *)
Definition rounds_to (y c : Z) : bool :=
  let e := (Z.log2 y + 1 - 53)%Z in
  let ulp := Z.shiftl 1 e in
  let m := Z.shiftr y e in
  let lo := (4 * y - (if (m =? 2 ^ 52)%Z then ulp else 2 * ulp))%Z in
  let hi := (4 * y + 2 * ulp)%Z in
  if Z.even m then (lo <=? 4 * c)%Z && (4 * c <=? hi)%Z
  else (lo <? 4 * c)%Z && (4 * c <? hi)%Z.

(** The multiple of the largest power of ten [p] that still rounds to [y],
    the nearer one when two do. *)
Fixpoint shortest_from (fuel : nat) (y p best : Z) : Z :=
  match fuel with
  | O => best
  | S fuel' =>
      let c1 := (y / p * p)%Z in
      let c2 := (c1 + p)%Z in
      match rounds_to y c1, rounds_to y c2 with
      | true, true =>
          let pick :=
            if (y - c1 <? c2 - y)%Z then c1
            else if (c2 - y <? y - c1)%Z then c2
            else if Z.even (c1 / p) then c1 else c2 in
          shortest_from fuel' y (10 * p)%Z pick
      | true, false => shortest_from fuel' y (10 * p)%Z c1
      | false, true => shortest_from fuel' y (10 * p)%Z c2
      | false, false => best
      end
  end.

(** The decimal with the fewest significant digits that reads back as the
    double [y]; no power of ten beyond 10^330 is needed. *)
Definition shortest (y : Z) : Z :=
  if (Z.log2 y + 1 <=? 53)%Z then y else shortest_from 330 y 10 y.

(** [String(z)] for a number: the shortest digits that read back as the
    same double, written plainly below 10^21 and in exponent notation from
    there on. *)
Definition number_to_string (z : Z) : string :=
  let sign := if (z <? 0)%Z then "-" else "" in
  match nearest_double (Z.abs z) with
  | None => sign +:+ "Infinity"
  | Some y =>
      let c := shortest y in
      let ds := digits (Z.to_N c) in
      if (c <? 10 ^ 21)%Z then sign +:+ ds
      else
        match ds with
        | String d rest =>
            let frac := String.rev (strip_zeros (String.rev rest)) in
            sign +:+ String d (if String.eqb frac "" then "" else "." +:+ frac)
                 +:+ "e+" +:+ digits (N.of_nat (String.length rest))
        | EmptyString => sign
        end
  end.

(** [String(v)], or [None] when the conversion throws a TypeError: an
    object is converted by its [toString], which is the one of
    [Object.prototype] unless the object has a key of that name; the value
    under such a key is no function (the body is JSON), nor is there a
    usable [valueOf], so the conversion throws.  An array joins the
    conversions of its elements. *)
Fixpoint js_String (v : JsVal) : option string :=
  match v with
  | JUndefined => Some "undefined"
  | JNull => Some "null"
  | JBool true => Some "true"
  | JBool false => Some "false"
  | JNum z => Some (number_to_string z)
  | JStr s => Some s
  | JObj fs => if has_own "toString" fs then None else Some "[object Object]"
  | JArr items =>
      let elem (x : JsVal) : option string :=
        match x with
        | JUndefined | JNull => Some ""
        | _ => js_String x
        end in
      (fix join (l : list JsVal) : option string :=
         match l with
         | [] => Some ""
         | [x] => elem x
         | x :: l' =>
             match elem x, join l' with
             | Some s, Some r => Some (s +:+ "," +:+ r)
             | _, _ => None
             end
         end) items
  end.

(** [raw && raw._id ? String(raw._id) : String(raw)] *)
Definition id_string (raw : JsVal) : option string :=
  let inner := if truthy raw then default JUndefined (get_prop raw "_id") else raw in
  if truthy inner then js_String inner else js_String raw.

Definition is_hex_digit (c : ascii) : bool :=
  let n := nat_of_ascii c in
  ((48 <=? n) && (n <=? 57)) || ((65 <=? n) && (n <=? 70))
  || ((97 <=? n) && (n <=? 102)).

Fixpoint all_hex (s : string) : bool :=
  match s with
  | EmptyString => true
  | String c s' => is_hex_digit c && all_hex s'
  end.

(** [/^[0-9a-fA-F]{24}$/.test(s)] *)
Definition hex24_test (s : string) : bool :=
  (String.length s =? 24) && all_hex s.

(** [!s || s.length !== 24 || !/^[0-9a-fA-F]{24}$/.test(s)].  A string is
    measured here in bytes; one that passes the test is ASCII, where bytes
    and UTF-16 units agree. *)
Definition invalid_id (s : string) : bool :=
  negb (truthy (JStr s)) || negb (String.length s =? 24) || negb (hex24_test s).

(** ** Object identifiers

    An [_id] and a [bookId] are ObjectIds: twelve bytes, kept here as the
    24 hexadecimal digits in lower case that [toHexString] writes. *)
Abbreviation ObjectId := string.

Definition lower_hex (c : ascii) : ascii :=
  let n := nat_of_ascii c in
  if (65 <=? n) && (n <=? 70) then ascii_of_nat (n + 32) else c.

(** The ObjectId that mongoose casts a string of 24 hexadecimal digits to
    when the string stands for an [_id] or a [bookId] in a query: the
    digits spell the same bytes in either case of the letters.  The
    reorder route lets no other string through to a query. *)
Fixpoint castObjectId (s : string) : ObjectId :=
  match s with
  | EmptyString => EmptyString
  | String c s' => String (lower_hex c) (castObjectId s')
  end.

(** The cast of a route parameter, which the listing and the delete route
    hand to their query as it came: [other] says what the driver makes of
    a string that is not 24 hexadecimal digits, [None] for a cast
    error. *)
Definition cast_param (other : string → option ObjectId) (s : string)
    : option ObjectId :=
  if hex24_test s then Some (castObjectId s) else other s.

(** ** The Page collection

    The collection is a finite map from [_id] to document. *)

(** A page document without its [_id], which keys the collection.
    [content] stands for every field of the schema other than the parent
    and the position; the routes below never read it. *)
Record Page : Type := mkPage {
  bookId : ObjectId;
  pageNumber : Z;
  content : list (string * JsVal);
}.

Definition set_pageNumber (v : Z) (p : Page) : Page :=
  mkPage (bookId p) v (content p).

Abbreviation Store := (gmap ObjectId Page).

(** The storage-level constraint: within one book no two documents hold
    the same page number. *)
Definition unique_index (st : Store) : Prop :=
  ∀ i j p q, st !! i = Some p → st !! j = Some q →
    bookId p = bookId q → pageNumber p = pageNumber q → i = j.

Definition holds_key (bid : ObjectId) (v : Z) (self : ObjectId)
    (entry : ObjectId * Page) : bool :=
  bool_decide (entry.1 ≠ self ∧ bookId entry.2 = bid ∧ pageNumber entry.2 = v).

(** Modelled from the spec: the unique index on [(bookId, pageNumber)] of
    the Page model, whose file is not among the sources (the route's own
    comment and the persisted-state layout of the spec both state it).
    Giving document [id] of book [bid] the number [v] conflicts when
    another document of that book already holds [v]. *)
Definition index_conflict (st : Store) (id bid : ObjectId) (v : Z) : bool :=
  existsb (holds_key bid v id) (map_to_list st).

Inductive DbError : Type := E11000.

(** [Page.findOneAndUpdate({ _id: id, bookId: bid }, { $set: { pageNumber: v } })]
    once the filter is cast, [id] and [bid] being the ObjectIds that the
    strings of the call stand for: the store after the call and the
    document as it was before (or [None] for [null] when nothing
    matches), or the duplicate-key error of the unique index, which leaves
    the store as it was. *)
Definition findOneAndUpdate (id bid : ObjectId) (v : Z) (st : Store)
    : DbError + (Store * option Page) :=
  match st !! id with
  | Some d =>
      if decide (bookId d = bid) then
        if index_conflict st id bid v then inl E11000
        else inr (<[id := set_pageNumber v d]> st, Some d)
      else inr (st, None)
  | None => inr (st, None)
  end.

(** [Page.findOne({ _id: id, bookId: bid })], the filter cast likewise. *)
Definition findOne (id bid : ObjectId) (st : Store) : option Page :=
  match st !! id with
  | Some d => if decide (bookId d = bid) then Some d else None
  | None => None
  end.

Definition by_pageNumber (x y : ObjectId * Page) : Prop :=
  (pageNumber x.2 ≤ pageNumber y.2)%Z.

#[global] Instance by_pageNumber_dec : RelDecision by_pageNumber.
Proof. intros x y. unfold by_pageNumber. apply _. Defined.

(** [Page.find({ bookId: bid }).sort({ pageNumber: 1 })] for the ObjectId
    [bid] that the filter is cast to, each document with its [_id].
    ([populate] only expands a reference inside [content].) *)
Definition find_sorted (bid : ObjectId) (st : Store) : list (ObjectId * Page) :=
  merge_sort by_pageNumber
    (filter (λ e : ObjectId * Page, bookId e.2 = bid) (map_to_list st)).

(** ** Effects of a request handler *)

Inductive Exn : Type := TypeError | MongoServerError (e : DbError) | CastError.

Inductive Phase : Type := Quarantine | Commit.

Inductive WriteResult : Type := Updated | NoMatch | Rejected.

(** One issued write, as the store saw it: the filter as cast, the value
    set, what came of it, and the store once the call has returned. *)
Record Event : Type := mkEvent {
  ev_phase : Phase;
  ev_id : ObjectId;
  ev_book : ObjectId;
  ev_value : Z;
  ev_result : WriteResult;
  ev_db : Store;
}.

(** The lines the reorder handler writes to the console, each with the
    values it interpolates ([LogReceived] with the raw fields, of which the
    handler prints the first and the length of the second). *)
Inductive LogLine : Type :=
  | LogReceived (bookId pageOrder : JsVal)
  | ErrInvalidBookId (bookIdStr : string)
  | LogReordering (n : nat) (bookIdStr : string)
  | WarnInvalidPageId (pageIdStr : string)
  | LogPhase1 (n : nat)
  | LogPhase2
  | LogUpdated (updatedCount : nat)
  | LogSuccess (n : nat)
  | ErrReorder (e : Exn).

(** What a handler acts on: the collection, and, for the record, the
    writes it has issued and the lines it has logged, oldest first. *)
Record World : Type := mkWorld {
  db : Store;
  events : list Event;
  console : list LogLine;
}.

(** A computation may change the world and then return or throw; what it
    wrote before throwing stays written. *)
Definition M (A : Type) : Type := World → World * (Exn + A).

Definition ret {A} (a : A) : M A := λ w, (w, inr a).

Definition throw {A} (e : Exn) : M A := λ w, (w, inl e).

Definition bind {A B} (m : M A) (k : A → M B) : M B :=
  λ w, match m w with
       | (w', inl e) => (w', inl e)
       | (w', inr a) => k a w'
       end.

Notation "x <- m ;; k" := (bind m (λ x, k))
  (at level 100, m at next level, right associativity, only parsing).
Notation "m ;; k" := (bind m (λ _, k))
  (at level 100, right associativity, only parsing).

Definition console_log (l : LogLine) : M unit :=
  λ w, (mkWorld (db w) (events w) (console w ++ [l]), inr tt).

(** [v.k], throwing on [null] and [undefined]. *)
Definition read_prop (v : JsVal) (k : string) : M JsVal :=
  match get_prop v k with
  | Some x => ret x
  | None => throw TypeError
  end.

(** [raw && raw._id ? String(raw._id) : String(raw)], throwing when the
    conversion does. *)
Definition read_id (raw : JsVal) : M string :=
  match id_string raw with
  | Some s => ret s
  | None => throw TypeError
  end.

(** An awaited [findOneAndUpdate] of phase [ph], called with the strings
    [id] and [bid], which mongoose casts. *)
Definition update_page (ph : Phase) (id bid : string) (v : Z) : M (option Page) :=
  λ w, match findOneAndUpdate (castObjectId id) (castObjectId bid) v (db w) with
       | inl e =>
           (mkWorld (db w)
              (events w ++ [mkEvent ph (castObjectId id) (castObjectId bid) v
                              Rejected (db w)])
              (console w),
            inl (MongoServerError e))
       | inr (st, r) =>
           (mkWorld st
              (events w ++ [mkEvent ph (castObjectId id) (castObjectId bid) v
                              (match r with Some _ => Updated | None => NoMatch end)
                              st])
              (console w),
            inr r)
       end.

Definition read_page (id bid : string) : M (option Page) :=
  λ w, (w, inr (findOne (castObjectId id) (castObjectId bid) (db w))).

Definition read_pages (bid : string) : M (list (ObjectId * Page)) :=
  λ w, (w, inr (find_sorted (castObjectId bid) (db w))).

(** ** The routes *)

Inductive Body : Type :=
  | Pages (pages : list (ObjectId * Page))
  | Message (message : string)
  | Failure (error : Exn).

Record Response : Type := mkResponse { status : nat; body : Body }.

(** An entry of [validPageOrders]. *)
Record ValidOrder : Type := mkValidOrder {
  pageId : string;
  newPageNumber : JsVal;
}.

(** What a value [$set] as [pageNumber] becomes once the schema has cast
    it: a number, nothing at all (the key is dropped and the call only
    reads), or a cast error. *)
Inductive CastOutcome : Type := CastTo (z : Z) | CastOmit | CastFail.

(** The placeholder of the entry at index [i]: [-(i + 1)]. *)
Definition placeholder (i : nat) : Z := (- (Z.of_nat i + 1))%Z.

Section Routes.
(** What [mongoose.Types.ObjectId.isValid], the driver's own test, says of
    a string that is not 24 hexadecimal digits (some versions accept a
    string of twelve bytes as well). *)
Variable valid_other : string → bool.

(** What the driver makes of a route parameter that is not 24 hexadecimal
    digits when it casts it to an ObjectId. *)
Variable cast_other : string → option ObjectId.

(** How the Page schema, which is not among the sources, casts a value
    that is not a number. *)
Variable schema_cast : JsVal → CastOutcome.

(** [mongoose.Types.ObjectId.isValid] on a string: 24 hexadecimal digits
    are valid in every version of the driver. *)
Definition ObjectId_isValid (s : string) : bool :=
  hex24_test s || valid_other s.

Definition cast_pageNumber (v : JsVal) : CastOutcome :=
  match v with
  | JNum z => CastTo z
  | _ => schema_cast v
  end.

(** [router.get('/book/:bookId')] *)
Definition get_book_pages (bookId : string) (st : Store) : Response :=
  if negb (ObjectId_isValid bookId) then mkResponse 200 (Pages [])
  else
    match cast_param cast_other bookId with
    | Some bid => mkResponse 200 (Pages (find_sorted bid st))
    | None => mkResponse 500 (Failure CastError)
    end.

(** The loop that fills [validPageOrders]. *)
Fixpoint validate (pageOrder : list JsVal) (validPageOrders : list ValidOrder)
    : M (list ValidOrder) :=
  match pageOrder with
  | [] => ret validPageOrders
  | item :: rest =>
      pageIdRaw <- read_prop item "pageId" ;;
      pageIdStr <- read_id pageIdRaw ;;
      if invalid_id pageIdStr then
        console_log (WarnInvalidPageId pageIdStr) ;;
        validate rest validPageOrders
      else
        n <- read_prop item "newPageNumber" ;;
        validate rest (validPageOrders ++ [mkValidOrder pageIdStr n])
  end.

(** PHASE 1, from index [i] on. *)
Fixpoint phase1 (bookIdStr : string) (i : nat) (validPageOrders : list ValidOrder)
    : M unit :=
  match validPageOrders with
  | [] => ret tt
  | o :: rest =>
      update_page Quarantine (pageId o) bookIdStr (placeholder i) ;;
      phase1 bookIdStr (S i) rest
  end.

(** [findOneAndUpdate(..., { $set: { pageNumber: v } })] of PHASE 2. *)
Definition set_final (id bid : string) (v : JsVal) : M (option Page) :=
  match cast_pageNumber v with
  | CastTo z => update_page Commit id bid z
  | CastOmit => read_page id bid
  | CastFail => throw CastError
  end.

(** PHASE 2, with the count so far. *)
Fixpoint phase2 (bookIdStr : string) (validPageOrders : list ValidOrder)
    (updatedCount : nat) : M nat :=
  match validPageOrders with
  | [] => ret updatedCount
  | o :: rest =>
      result <- set_final (pageId o) bookIdStr (newPageNumber o) ;;
      phase2 bookIdStr rest
        (match result with Some _ => S updatedCount | None => updatedCount end)
  end.

(** The [try] block of [router.post('/reorder')]. *)
Definition reorder_try (req_body : list (string * JsVal)) : M Response :=
  let bookId := field "bookId" req_body in
  let pageOrder := field "pageOrder" req_body in
  console_log (LogReceived bookId pageOrder) ;;
  if negb (truthy bookId) || negb (truthy pageOrder) || negb (isArray pageOrder)
  then ret (mkResponse 400 (Message "bookId and pageOrder array are required"))
  else
    bookIdStr <- read_id bookId ;;
    if invalid_id bookIdStr then
      console_log (ErrInvalidBookId bookIdStr) ;;
      ret (mkResponse 400 (Message "Invalid bookId format"))
    else
      let items := match pageOrder with JArr l => l | _ => [] end in
      console_log (LogReordering (length items) bookIdStr) ;;
      validPageOrders <- validate items [] ;;
      console_log (LogPhase1 (length validPageOrders)) ;;
      phase1 bookIdStr 0 validPageOrders ;;
      console_log LogPhase2 ;;
      updatedCount <- phase2 bookIdStr validPageOrders 0 ;;
      console_log (LogUpdated updatedCount) ;;
      updatedPages <- read_pages bookIdStr ;;
      console_log (LogSuccess (length updatedPages)) ;;
      ret (mkResponse 200 (Pages updatedPages)).

(** [router.post('/reorder')]: the [try] block, and the [catch] that
    turns anything thrown into a 500. *)
Definition reorder (req_body : list (string * JsVal)) (w : World)
    : World * Response :=
  match reorder_try req_body w with
  | (w', inr res) => (w', res)
  | (w', inl e) =>
      (mkWorld (db w') (events w') (console w' ++ [ErrReorder e]),
       mkResponse 500 (Failure e))
  end.
End Routes.

(** ** Requests of the documented shape *)

(** A world with nothing logged yet. *)
Definition start (st : Store) : World := mkWorld st [] [].

(** [{ pageId: id, newPageNumber: n }] *)
Definition entry (id : string) (n : Z) : JsVal :=
  JObj [("pageId", JStr id); ("newPageNumber", JNum n)].

(** [{ bookId: bid, pageOrder: entries }], the body that the route's header
    comment documents. *)
Definition request (bid : string) (entries : list JsVal) : list (string * JsVal) :=
  [("bookId", JStr bid); ("pageOrder", JArr entries)].

Definition order_entry (o : string * Z) : JsVal := entry o.1 o.2.

(** ** Vocabulary of the properties *)

(** The three ways a write can go. *)
Inductive write_spec (id bid : ObjectId) (v : Z) (st : Store)
    : DbError + (Store * option Page) → Prop :=
  | write_updated d :
      st !! id = Some d → bookId d = bid →
      index_conflict st id bid v = false →
      write_spec id bid v st (inr (<[id := set_pageNumber v d]> st, Some d))
  | write_rejected d :
      st !! id = Some d → bookId d = bid →
      index_conflict st id bid v = true →
      write_spec id bid v st (inl E11000)
  | write_nomatch :
      findOne id bid st = None →
      write_spec id bid v st (inr (st, None)).

(** What a reorder may change of a store: positions of pages of [bid],
    and nothing else. *)
Definition only_positions_of (bid : ObjectId) (st st' : Store) : Prop :=
  ∀ q, match st !! q, st' !! q with
       | Some d, Some d' =>
           bookId d' = bookId d ∧ content d' = content d
           ∧ (bookId d ≠ bid → d' = d)
       | None, None => True
       | _, _ => False
       end.

(** The store after one accepted write. *)
Definition assign1 (bid : ObjectId) (st : Store) (o : ObjectId * Z) : Store :=
  match findOne o.1 bid st with
  | Some d => <[o.1 := set_pageNumber o.2 d]> st
  | None => st
  end.

Definition assign (bid : ObjectId) (ws : list (ObjectId * Z)) (st : Store) : Store :=
  foldl (assign1 bid) st ws.

(** No page of [bid] other than the one written holds a value that [ws]
    is about to write. *)
Definition clear_of (bid : ObjectId) (ws : list (ObjectId * Z)) (st : Store) : Prop :=
  ∀ p v q d, (p, v) ∈ ws → st !! q = Some d → bookId d = bid → q ≠ p →
    pageNumber d ≠ v.

(** The writes of PHASE 1 from index [i] on, by the page each names. *)
Fixpoint phase1_writes (i : nat) (vs : list ValidOrder) : list (ObjectId * Z) :=
  match vs with
  | [] => []
  | o :: rest => (castObjectId (pageId o), placeholder i) :: phase1_writes (S i) rest
  end.

(** The writes of PHASE 2 for a list of identifiers and targets, by the
    page each names. *)
Definition phase2_writes (orders : list (string * Z)) : list (ObjectId * Z) :=
  (λ o, (castObjectId o.1, o.2)) <$> orders.

Definition result_of (r : option Page) : WriteResult :=
  match r with Some _ => Updated | None => NoMatch end.

Definition valid_of (o : string * Z) : ValidOrder := mkValidOrder o.1 (JNum o.2).

Definition accepted (e : Event) : Prop := ev_result e ≠ Rejected.

(** The store once both phases went through. *)
Definition reordered (bid : string) (orders : list (string * Z)) (st : Store) : Store :=
  assign (castObjectId bid) (phase2_writes orders)
    (assign (castObjectId bid) (phase1_writes 0 (valid_of <$> orders)) st).

(** A response that carries exactly the pages of [bid] in [st], in
    ascending order of position. *)
Definition sorted_pages_of (bid : ObjectId) (st : Store) (res : Response) : Prop :=
  ∃ ps, res = mkResponse 200 (Pages ps)
    ∧ Sorted by_pageNumber ps ∧ NoDup ps
    ∧ ∀ id d, (id, d) ∈ ps ↔ st !! id = Some d ∧ bookId d = bid.

Definition steps (R : relation World) {A} (m : M A) : Prop :=
  ∀ w, R w (m w).1.

(** Every store that the writes from [w] to [w'] left behind, and the
    store of [w'] itself, has unique positions. *)
Definition unique_throughout (w w' : World) : Prop :=
  unique_index (db w') ∧
  ∃ evs, events w' = events w ++ evs ∧ Forall (λ e, unique_index (ev_db e)) evs.

(** A request that one of the two guards turns down: [bookId] is missing
    or otherwise falsy, or its string is not 24 hexadecimal digits, or
    [pageOrder] is missing or not an array. *)
Definition invalid_request (body : list (string * JsVal)) : Prop :=
  truthy (field "bookId" body) = false
  ∨ (∃ s, id_string (field "bookId" body) = Some s ∧ invalid_id s = true)
  ∨ truthy (field "pageOrder" body) = false
  ∨ isArray (field "pageOrder" body) = false.

(** The first guard of the handler. *)
Definition lacks_fields (body : list (string * JsVal)) : bool :=
  negb (truthy (field "bookId" body)) || negb (truthy (field "pageOrder" body))
  || negb (isArray (field "pageOrder" body)).

(** The request lists distinct existing pages of [bid] with distinct
    targets, every identifier well-formed.  Pages are distinct when the
    ObjectIds are that the identifiers spell. *)
Definition distinct_existing (bid : string) (orders : list (string * Z))
    (st : Store) : Prop :=
  invalid_id bid = false ∧ NoDup (castObjectId <$> orders.*1) ∧ NoDup orders.*2 ∧
  ∀ id n, (id, n) ∈ orders →
    invalid_id id = false
    ∧ ∃ d, st !! castObjectId id = Some d ∧ bookId d = castObjectId bid.

(** Every listed page is stored at its requested position and the
    response is the sorted page set of the parent. *)
Definition applied (bid : string) (orders : list (string * Z))
    (out : World * Response) : Prop :=
  (∀ id n, (id, n) ∈ orders →
     pageNumber <$> db out.1 !! castObjectId id = Some n)
  ∧ sorted_pages_of (castObjectId bid) (db out.1) out.2.

(** The placeholders that a request of [n] valid entries uses. *)
Definition placeholder_range (n : nat) (v : Z) : Prop :=
  (- Z.of_nat n ≤ v ≤ -1)%Z.

#[global] Instance unique_index_dec (st : Store) : Decision (unique_index st).
Proof.
  refine (cast_if (decide (map_Forall (λ i p, map_Forall (λ j q,
    bookId p = bookId q → pageNumber p = pageNumber q → i = j) st) st)));
    unfold unique_index, map_Forall in *; naive_solver.
Defined.

#[global] Instance placeholder_range_dec n v : Decision (placeholder_range n v).
Proof. unfold placeholder_range. apply _. Defined.

Definition logged (w : World) (l : LogLine) : World :=
  mkWorld (db w) (events w) (console w ++ [l]).

(** What the [catch] makes of an exception thrown in world [w]. *)
Definition caught (w : World) (e : Exn) : World * Response :=
  (logged w (ErrReorder e), mkResponse 500 (Failure e)).

(** The request passes both guards: its [bookId] has the string [bid], 24
    hexadecimal digits, and its [pageOrder] is the array [items]. *)
Definition well_formed_request (body : list (string * JsVal))
    (bid : string) (items : list JsVal) : Prop :=
  truthy (field "bookId" body) = true
  ∧ id_string (field "bookId" body) = Some bid
  ∧ invalid_id bid = false
  ∧ field "pageOrder" body = JArr items.

(** The request passes the first guard, and the conversion of its
    [bookId] to a string throws. *)
Definition unprintable_request (body : list (string * JsVal)) : Prop :=
  lacks_fields body = false ∧ id_string (field "bookId" body) = None.

(** The ways an accepted request can end, by the stage that ends it. *)
Inductive pipeline (cast : JsVal → CastOutcome) (bid : string)
    (items : list JsVal) (w0 : World) : World * Response → Prop :=
  | pipe_validate_throws w1 e :
      validate items [] w0 = (w1, inl e) →
      pipeline cast bid items w0 (caught w1 e)
  | pipe_phase1_throws w1 vs w2 e :
      validate items [] w0 = (w1, inr vs) →
      phase1 bid 0 vs (logged w1 (LogPhase1 (length vs))) = (w2, inl e) →
      pipeline cast bid items w0 (caught w2 e)
  | pipe_phase2_throws w1 vs w2 w3 e :
      validate items [] w0 = (w1, inr vs) →
      phase1 bid 0 vs (logged w1 (LogPhase1 (length vs))) = (w2, inr tt) →
      phase2 cast bid vs 0 (logged w2 LogPhase2) = (w3, inl e) →
      pipeline cast bid items w0 (caught w3 e)
  | pipe_done w1 vs w2 w3 c :
      validate items [] w0 = (w1, inr vs) →
      phase1 bid 0 vs (logged w1 (LogPhase1 (length vs))) = (w2, inr tt) →
      phase2 cast bid vs 0 (logged w2 LogPhase2) = (w3, inr c) →
      pipeline cast bid items w0
        (logged (logged w3 (LogUpdated c))
           (LogSuccess (length (find_sorted (castObjectId bid) (db w3)))),
         mkResponse 200 (Pages (find_sorted (castObjectId bid) (db w3)))).

(** The entries that the validation loop keeps, and the warnings it
    writes: what the loop returns and logs, run on its own. *)
Definition validPageOrders (items : list JsVal) : Exn + list ValidOrder :=
  (validate items [] (start ∅)).2.

Definition warnings (items : list JsVal) : list LogLine :=
  console (validate items [] (start ∅)).1.

(** An entry whose [pageId] has a string, [s], that is no identifier: the
    entry that the validation loop warns about and skips. *)
Definition malformed_entry (item : JsVal) (s : string) : Prop :=
  ∃ raw, get_prop item "pageId" = Some raw ∧ id_string raw = Some s
         ∧ invalid_id s = true.

(** What the log says of the [k]-th write of PHASE 1 started at index [i]. *)
Definition quarantine_event (bid : string) (i : nat) (vs : list ValidOrder)
    (k : nat) (e : Event) : Prop :=
  ev_phase e = Quarantine ∧ ev_book e = castObjectId bid
  ∧ castObjectId ∘ pageId <$> vs !! k = Some (ev_id e)
  ∧ ev_value e = placeholder (i + k)
  ∧ (ev_result e = Updated →
       pageNumber <$> ev_db e !! ev_id e = Some (ev_value e)).

(** The entry's identifier is that of a page of [bid] in [st]. *)
Definition resolves (bid : string) (st : Store) (o : ValidOrder) : Prop :=
  is_Some (findOne (castObjectId (pageId o)) (castObjectId bid) st).

#[global] Instance resolves_dec bid st o : Decision (resolves bid st o).
Proof. unfold resolves. apply _. Defined.

(** The outcome of [m] is a function of the store it starts from; the
    write log and the console are only appended to. *)
Definition tidy {A} (m : M A) : Prop :=
  ∀ st, ∃ st' evs lines r, ∀ w, db w = st →
    m w = (mkWorld st' (events w ++ evs) (console w ++ lines), r).

(** The steps of the [try] block that follow the validation loop. *)
Definition after_validation (cast : JsVal → CastOutcome) (bookIdStr : string)
    (validPageOrders : list ValidOrder) : M Response :=
  console_log (LogPhase1 (length validPageOrders)) ;;
  phase1 bookIdStr 0 validPageOrders ;;
  console_log LogPhase2 ;;
  updatedCount <- phase2 cast bookIdStr validPageOrders 0 ;;
  console_log (LogUpdated updatedCount) ;;
  updatedPages <- read_pages bookIdStr ;;
  console_log (LogSuccess (length updatedPages)) ;;
  ret (mkResponse 200 (Pages updatedPages)).

(** What the [catch] adds to the outcome of the [try] block. *)
Definition settle (out : World * (Exn + Response)) : World * Response :=
  match out with
  | (w', inr res) => (w', res)
  | (w', inl e) => caught w' e
  end.

(** ** The routes that create and delete a page *)

(** [a || b] *)
Definition js_or (a b : JsVal) : JsVal := if truthy a then a else b.

(** [v !== false] *)
Definition not_false (v : JsVal) : JsVal :=
  match v with
  | JBool false => JBool false
  | _ => JBool true
  end.

(** The object literal that [router.post('/')] passes to [new Page]. *)
Definition create_fields (req_body : list (string * JsVal)) : list (string * JsVal) :=
  let get k := field k req_body in
  [ ("bookId", get "bookId");
    ("pageNumber", get "pageNumber");
    ("content", get "content");
    ("imageUrl", get "imageUrl");
    ("audioUrl", get "audioUrl");
    ("backgroundUrl", get "backgroundUrl");
    ("backgroundType", get "backgroundType");
    ("scrollUrl", get "scrollUrl");
    ("scrollHeight", get "scrollHeight");
    ("scrollMidHeight", get "scrollMidHeight");
    ("scrollMaxHeight", get "scrollMaxHeight");
    ("scrollOffsetY", js_or (get "scrollOffsetY") (JNum 0));
    ("scrollOffsetX", js_or (get "scrollOffsetX") (JNum 0));
    ("scrollWidth", js_or (get "scrollWidth") (JNum 100));
    ("soundEffectUrl", get "soundEffectUrl");
    ("backgroundAudioUrl", get "backgroundAudioUrl");
    ("textBoxes", get "textBoxes");
    ("isColoringPage", js_or (get "isColoringPage") (JBool false));
    ("coloringEndModalOnly", not_false (get "coloringEndModalOnly"));
    ("isWebViewPage", js_or (get "isWebViewPage") (JBool false));
    ("webView", js_or (get "webView") (JObj []));
    ("videoSequence", js_or (get "videoSequence") (JArr []));
    ("useVideoSequence", js_or (get "useVideoSequence") (JBool false));
    ("imageSequence", js_or (get "imageSequence") (JArr []));
    ("useImageSequence", js_or (get "useImageSequence") (JBool false));
    ("imageSequenceDuration", js_or (get "imageSequenceDuration") (JNum 3));
    ("imageSequenceAnimation", js_or (get "imageSequenceAnimation") (JStr "kenBurns")) ].

(** What [page.save()] can throw in [router.post('/')]. *)
Inductive SaveError : Type := ValidationError | SaveRejected (e : DbError).

(** The body of the answer of [router.post('/')]: the saved document, or
    the message of what was thrown. *)
Inductive CreateBody : Type :=
  | CreatedPage (id : ObjectId) (p : Page)
  | CreateFailed (e : SaveError).

Section DocumentRoutes.
(** What the driver makes of a route parameter that is not 24 hexadecimal
    digits when [findById] casts it to an [_id]; [findById] throws a cast
    error when the cast fails. *)
Variable cast_other : string → option ObjectId.

(** The document that the Page schema, which is not among the sources,
    makes of the constructor's fields, or [None] when validation fails on
    save. *)
Variable new_Page : list (string * JsVal) → option Page.

(** The [_id] that the constructor generates. *)
Variable new_id : ObjectId.

(** [router.post('/')].  The collection rejects an insert whose [_id] is
    taken or whose pair of parent and position the unique index holds. *)
Definition create_page (req_body : list (string * JsVal)) (st : Store)
    : Store * (nat * CreateBody) :=
  match new_Page (create_fields req_body) with
  | None => (st, (400, CreateFailed ValidationError))
  | Some page =>
      if bool_decide (is_Some (st !! new_id))
         || index_conflict st new_id (bookId page) (pageNumber page)
      then (st, (400, CreateFailed (SaveRejected E11000)))
      else (<[new_id := page]> st, (201, CreatedPage new_id page))
  end.

(** [router.delete('/:id')] *)
Definition delete_page (id : string) (st : Store) : Store * Response :=
  match cast_param cast_other id with
  | None => (st, mkResponse 500 (Failure CastError))
  | Some oid =>
      match st !! oid with
      | None => (st, mkResponse 404 (Message "Page not found"))
      | Some page => (delete oid st, mkResponse 200 (Message "Page deleted"))
      end
  end.
End DocumentRoutes.

(** ** Vocabulary of the further properties *)



Definition by_position_strictly (x y : ObjectId * Page) : Prop :=
  (pageNumber x.2 < pageNumber y.2)%Z.


(** ** Sample data *)

Definition idP : string := "64b000000000000000000001".
Definition idQ : string := "64b000000000000000000002".
Definition idA : string := "64a00000000000000000000a".
Definition idB : string := "64a00000000000000000000b".
Definition idC : string := "64a00000000000000000000c".
Definition idX : string := "64a0000000000000000000ff".

Definition page (bid : ObjectId) (n : Z) (text : string) : Page :=
  mkPage bid n [("content", JStr text)].

Definition book3 : Store :=
  <[idA := page idP 1 "a"]> (<[idB := page idP 2 "b"]> (<[idC := page idP 3 "c"]> ∅)).

(** A schema cast that rejects whatever is not a number. *)
Definition strict_cast (v : JsVal) : CastOutcome := CastFail.

(** A driver for which no string but 24 hexadecimal digits is valid. *)
Definition hex_only_valid (s : string) : bool := false.

(** A driver that casts no string but 24 hexadecimal digits. *)
Definition hex_only (s : string) : option ObjectId := None.

(** Identifiers of the samples written in upper case. *)
Definition idP_upper : string := "64B000000000000000000001".
Definition idA_upper : string := "64A00000000000000000000A".
Definition idB_upper : string := "64A00000000000000000000B".

(** What the failed request for page C alone leaves of the three pages:
    C at its placeholder. *)
Definition book_after_failure : Store :=
  <[idA := page idP 1 "a"]> (<[idB := page idP 2 "b"]> (<[idC := page idP (-1) "c"]> ∅)).

(** A book one of whose pages was left at -2. *)
Definition book_left_at_2 : Store :=
  <[idA := page idP 1 "a"]> (<[idB := page idP 2 "b"]> (<[idC := page idP (-2) "c"]> ∅)).

Definition book1 : Store := <[idA := page idP 1 "a"]> ∅.

(** A book one of whose pages was left at a negative position. *)
Definition book_left_over : Store :=
  <[idA := page idP 1 "a"]> (<[idB := page idP (-1) "b"]> ∅).

(** An object that cannot be converted to a string. *)
Definition unprintable : JsVal := JObj [("toString", JNum 1)].

Definition bad_entry : JsVal :=
  JObj [("pageId", JStr "page-7"); ("newPageNumber", JNum 4)].


(** The same request with, in the place of the malformed entry, one whose
    [pageId] cannot be converted to a string. *)
Definition body_with_unprintable : list (string * JsVal) :=
  request idP ([entry idA 3]
               ++ JObj [("pageId", unprintable); ("newPageNumber", JNum 4)]
                  :: [entry idB 1; entry idC 2]).


Definition orders_with_stranger : list (string * Z) :=
  [(idA, 3%Z); (idX, 9%Z); (idB, 1%Z); (idC, 2%Z)].

(** Two books; page C belongs to the second. *)
Definition two_books : Store :=
  <[idA := page idP 1 "a"]> (<[idB := page idP 2 "b"]> (<[idC := page idQ 1 "c"]> ∅)).

(** * Properties *)

Ltac list_cases H :=
  repeat (apply elem_of_cons in H as [H|H]);
  [..|by apply elem_of_nil in H]; simplify_eq.

Ltac by_evaluation := vm_compute; reflexivity.

(** ** Coercions and identifiers *)

Example number_to_string_samples :
  number_to_string (-12) = "-12" ∧ number_to_string 0 = "0"
  ∧ number_to_string (2 ^ 53) = "9007199254740992"
  ∧ number_to_string (2 ^ 53 + 1) = "9007199254740992"
  ∧ number_to_string (2 ^ 64) = "18446744073709552000"
  ∧ number_to_string (15 * 10 ^ 20) = "1.5e+21"
  ∧ number_to_string (10 ^ 23) = "1e+23"
  ∧ number_to_string (2 ^ 70) = "1.1805916207174113e+21"
  ∧ number_to_string (- 2 ^ 1024) = "-Infinity".
Proof. repeat split; by_evaluation. Qed.

Example js_String_samples :
  js_String (JArr [JStr "a"; JNull; JNum 3]) = Some "a,,3"
  ∧ js_String (JArr [JArr [JNum 1; JNum 2]; JObj []]) = Some "1,2,[object Object]"
  ∧ js_String unprintable = None
  ∧ js_String (JArr [JNum 1; unprintable]) = None
  ∧ id_string (JObj [("_id", JStr "abc")]) = Some "abc"
  ∧ id_string (JObj [("_id", unprintable)]) = None
  ∧ id_string (JObj []) = Some "[object Object]"
  ∧ id_string JUndefined = Some "undefined".
Proof. repeat split; by_evaluation. Qed.

Example invalid_id_samples :
  invalid_id "5f8d0d55b54764421b7156c3" = false
  ∧ invalid_id "5F8D0D55B54764421B7156C3" = false
  ∧ invalid_id "5f8d0d55b54764421b7156cg" = true
  ∧ invalid_id "5f8d0d55b54764421b7156c" = true
  ∧ invalid_id "undefined" = true
  ∧ castObjectId "5F8D0D55B54764421B7156C3" = "5f8d0d55b54764421b7156c3"
  ∧ castObjectId idA_upper = idA ∧ castObjectId idA = idA.
Proof. repeat split; by_evaluation. Qed.

Example spec_example :
  (reorder strict_cast (request idP [entry idA 3; entry idB 1; entry idC 2]) (start book3)).2
  = mkResponse 200 (Pages [(idB, page idP 1 "b"); (idC, page idP 2 "c"); (idA, page idP 3 "a")]).
Proof. by_evaluation. Qed.

(** ** The store under one write *)

Lemma index_conflict_true (st : Store) id bid v :
  index_conflict st id bid v = true ↔
  ∃ q d, st !! q = Some d ∧ q ≠ id ∧ bookId d = bid ∧ pageNumber d = v.
Proof.
  unfold index_conflict. rewrite existsb_exists. split.
  - intros [[q d] [Hin Hk]]. apply list_elem_of_In, elem_of_map_to_list in Hin.
    apply bool_decide_eq_true in Hk. simpl in Hk. exists q, d. tauto.
  - intros (q & d & Hq & Hne & Hb & Hv). exists (q, d). split.
    + by apply list_elem_of_In, elem_of_map_to_list.
    + apply bool_decide_eq_true. simpl. tauto.
Qed.

Lemma index_conflict_false (st : Store) id bid v :
  index_conflict st id bid v = false ↔
  ∀ q d, st !! q = Some d → bookId d = bid → q ≠ id → pageNumber d ≠ v.
Proof.
  rewrite <- not_true_iff_false, index_conflict_true. split.
  - intros Hn q d Hq Hb Hne Hv. apply Hn. eauto 10.
  - intros Hall (q & d & Hq & Hne & Hb & Hv). by eapply Hall.
Qed.

Lemma findOneAndUpdate_spec id bid v st :
  write_spec id bid v st (findOneAndUpdate id bid v st).
Proof.
  unfold findOneAndUpdate.
  destruct (st !! id) as [d|] eqn:Hd.
  - destruct (decide (bookId d = bid)) as [Hb|Hb].
    + destruct (index_conflict st id bid v) eqn:Hc.
      * by eapply write_rejected.
      * by eapply write_updated.
    + apply write_nomatch. unfold findOne. rewrite Hd. by rewrite decide_False.
  - apply write_nomatch. unfold findOne. by rewrite Hd.
Qed.

Lemma findOne_Some id bid st d :
  findOne id bid st = Some d ↔ st !! id = Some d ∧ bookId d = bid.
Proof.
  unfold findOne. destruct (st !! id) as [d'|]; [|by split; [|intros []]].
  destruct (decide (bookId d' = bid)); split; intros; destruct_and?;
    simplify_eq; done.
Qed.

Lemma findOne_None id bid st :
  findOne id bid st = None ↔ ∀ d, st !! id = Some d → bookId d ≠ bid.
Proof.
  unfold findOne. destruct (st !! id) as [d'|]; [|done].
  destruct (decide (bookId d' = bid)); split; try done.
  - intros H. by destruct (H d').
  - intros _ d0 ?. by simplify_eq.
Qed.

(** A write the index lets through keeps the index unique. *)
Lemma insert_unique_index (st : Store) id d v :
  unique_index st → st !! id = Some d →
  index_conflict st id (bookId d) v = false →
  unique_index (<[id := set_pageNumber v d]> st).
Proof.
  intros Hu Hd Hc. rewrite index_conflict_false in Hc.
  intros i j p q Hi Hj Hb Hn.
  apply lookup_insert_Some in Hi as [[<- <-]|[Hi' Hi]];
    apply lookup_insert_Some in Hj as [[<- <-]|[Hj' Hj]]; simpl in *.
  - done.
  - exfalso. eapply (Hc j q); eauto.
  - exfalso. eapply (Hc i p); eauto.
  - eauto.
Qed.

Lemma findOneAndUpdate_unique_index id bid v st st' r :
  unique_index st → findOneAndUpdate id bid v st = inr (st', r) →
  unique_index st'.
Proof.
  intros Hu Heq. destruct (findOneAndUpdate_spec id bid v st); simplify_eq; [|done].
  by apply insert_unique_index.
Qed.

Lemma only_positions_of_refl bid st : only_positions_of bid st st.
Proof. intros q. by destruct (st !! q). Qed.

Lemma only_positions_of_trans bid st1 st2 st3 :
  only_positions_of bid st1 st2 → only_positions_of bid st2 st3 →
  only_positions_of bid st1 st3.
Proof.
  intros H12 H23 q. specialize (H12 q). specialize (H23 q).
  destruct (st1 !! q), (st2 !! q), (st3 !! q); try done.
  destruct H12 as (Hb & Hc & Hf), H23 as (Hb' & Hc' & Hf').
  repeat split; [congruence..|].
  intros Hne. rewrite Hf', Hf; congruence.
Qed.

Lemma findOneAndUpdate_only_positions id bid v st st' r :
  findOneAndUpdate id bid v st = inr (st', r) → only_positions_of bid st st'.
Proof.
  intros Heq. destruct (findOneAndUpdate_spec id bid v st); simplify_eq;
    [|apply only_positions_of_refl].
  intros q. rewrite lookup_insert. destruct (decide (id = q)) as [->|].
  - rewrite H. simpl. done.
  - by destruct (st !! q).
Qed.

(** ** Sequences of writes that the index lets through *)

Lemma update_page_clear ph id bid v w :
  (∀ q d, db w !! q = Some d → bookId d = castObjectId bid →
     q ≠ castObjectId id → pageNumber d ≠ v) →
  update_page ph id bid v w =
    (mkWorld (assign1 (castObjectId bid) (db w) (castObjectId id, v))
       (events w ++ [mkEvent ph (castObjectId id) (castObjectId bid) v
                       (result_of (findOne (castObjectId id) (castObjectId bid) (db w)))
                       (assign1 (castObjectId bid) (db w) (castObjectId id, v))])
       (console w),
     inr (findOne (castObjectId id) (castObjectId bid) (db w))).
Proof.
  intros Hclear. apply index_conflict_false in Hclear.
  unfold update_page, findOneAndUpdate, assign1, findOne. simpl.
  destruct (db w !! castObjectId id) as [d|]; [|done].
  destruct (decide (bookId d = castObjectId bid)); [|done]. by rewrite Hclear.
Qed.

Lemma assign1_lookup_ne bid st o q :
  q ≠ o.1 → assign1 bid st o !! q = st !! q.
Proof.
  intros Hne. unfold assign1. destruct (findOne o.1 bid st); [|done].
  by rewrite lookup_insert_ne.
Qed.

Lemma assign1_lookup_eq bid st p v d :
  st !! p = Some d → bookId d = bid →
  assign1 bid st (p, v) !! p = Some (set_pageNumber v d).
Proof.
  intros Hd Hb. unfold assign1. simpl.
  assert (findOne p bid st = Some d) as -> by by apply findOne_Some.
  by rewrite lookup_insert_eq.
Qed.

Lemma assign1_only_positions bid st o : only_positions_of bid st (assign1 bid st o).
Proof.
  unfold assign1. destruct (findOne o.1 bid st) as [d|] eqn:Hf;
    [|apply only_positions_of_refl].
  apply findOne_Some in Hf as [Hd Hb]. intros q. rewrite lookup_insert.
  destruct (decide (o.1 = q)) as [<-|].
  - rewrite Hd. simpl. done.
  - by destruct (st !! q).
Qed.

Lemma assign_only_positions bid ws st : only_positions_of bid st (assign bid ws st).
Proof.
  revert st. induction ws as [|o ws IH]; intros st; simpl.
  - apply only_positions_of_refl.
  - eapply only_positions_of_trans; [apply assign1_only_positions|apply IH].
Qed.

(** Whether an identifier resolves under a parent does not depend on
    positions. *)
Lemma only_positions_findOne bid st st' id :
  only_positions_of bid st st' →
  findOne id bid st = None ↔ findOne id bid st' = None.
Proof.
  intros H. specialize (H id). rewrite !findOne_None.
  destruct (st !! id) as [d|], (st' !! id) as [d'|]; try done.
  destruct H as (Hb & _ & _). split; intros Hn d0 ?; simplify_eq.
  - rewrite Hb. by apply Hn.
  - rewrite <- Hb. by apply Hn.
Qed.

Lemma clear_of_step bid p v ws st :
  v ∉ ws.*2 → clear_of bid ((p, v) :: ws) st →
  clear_of bid ws (assign1 bid st (p, v)).
Proof.
  intros Hv Hclear p' v' q d Hin Hq Hb Hne.
  destruct (decide (q = p)) as [->|Hqp].
  - unfold assign1 in Hq. simpl in Hq.
    destruct (findOne p bid st) as [d0|] eqn:Hf.
    + rewrite lookup_insert_eq in Hq. simplify_eq/=. intros ->.
      apply Hv. apply list_elem_of_fmap. by exists (p', v').
    + eapply (Hclear p' v' p d); eauto. by right.
  - rewrite assign1_lookup_ne in Hq by done.
    eapply (Hclear p' v' q d); eauto. by right.
Qed.

Lemma clear_of_head bid p v ws st q d :
  clear_of bid ((p, v) :: ws) st →
  st !! q = Some d → bookId d = bid → q ≠ p → pageNumber d ≠ v.
Proof. intros Hclear. apply Hclear. by left. Qed.

Lemma assign_lookup_other bid ws st q :
  q ∉ ws.*1 → assign bid ws st !! q = st !! q.
Proof.
  revert st. induction ws as [|o ws IH]; intros st Hq; [done|].
  simpl in *. apply not_elem_of_cons in Hq as [Hne Hq].
  rewrite IH by done. by apply assign1_lookup_ne.
Qed.

Lemma assign_lookup_unresolved bid ws st q :
  findOne q bid st = None → assign bid ws st !! q = st !! q.
Proof.
  revert st. induction ws as [|o ws IH]; intros st Hq; [done|].
  simpl. rewrite IH.
  - destruct (decide (q = o.1)) as [->|Hne]; [|by apply assign1_lookup_ne].
    unfold assign1. by rewrite Hq.
  - by apply (only_positions_findOne bid st _ q (assign1_only_positions bid st o)).
Qed.

Lemma assign_lookup_listed bid ws st p v d :
  NoDup ws.*1 → (p, v) ∈ ws → st !! p = Some d → bookId d = bid →
  assign bid ws st !! p = Some (set_pageNumber v d).
Proof.
  revert st. induction ws as [|o ws IH]; intros st Hnd Hin Hd Hb.
  - by apply elem_of_nil in Hin.
  - simpl in *. apply NoDup_cons in Hnd as [Ho Hnd].
    apply elem_of_cons in Hin as [<-|Hin].
    + rewrite assign_lookup_other by done. by apply assign1_lookup_eq.
    + apply IH; [done..| |done].
      rewrite assign1_lookup_ne; [done|]. intros ->. apply Ho.
      apply list_elem_of_fmap. by exists (o.1, v).
Qed.

Lemma result_of_accepted r : result_of r ≠ Rejected.
Proof. by destruct r. Qed.

Lemma phase1_writes_lookup i vs k :
  phase1_writes i vs !! k
  = (λ o, (castObjectId (pageId o), placeholder (i + k))) <$> vs !! k.
Proof.
  revert i k. induction vs as [|o vs IH]; intros i k; [done|].
  destruct k as [|k]; simpl.
  - by rewrite Nat.add_0_r.
  - rewrite IH. by rewrite Nat.add_succ_r.
Qed.

Lemma phase1_writes_values i vs :
  (phase1_writes i vs).*2 = placeholder <$> seq i (length vs).
Proof.
  revert i. induction vs as [|o vs IH]; intros i; [done|].
  simpl. by rewrite IH.
Qed.

Lemma placeholder_inj : Inj (=) (=) placeholder.
Proof. intros i j. unfold placeholder. lia. Qed.

Lemma phase1_writes_NoDup i vs : NoDup (phase1_writes i vs).*2.
Proof.
  rewrite phase1_writes_values. apply NoDup_fmap_2; [apply placeholder_inj|].
  apply NoDup_seq.
Qed.

Lemma phase1_ok bid vs i w :
  clear_of (castObjectId bid) (phase1_writes i vs) (db w) →
  ∃ w' evs, phase1 bid i vs w = (w', inr tt)
    ∧ db w' = assign (castObjectId bid) (phase1_writes i vs) (db w)
    ∧ events w' = events w ++ evs ∧ Forall accepted evs.
Proof.
  revert i w. induction vs as [|o vs IH]; intros i w Hclear; simpl.
  - exists w, []. by rewrite app_nil_r.
  - unfold bind. rewrite update_page_clear by eauto using clear_of_head.
    destruct (IH (S i)
      (mkWorld (assign1 (castObjectId bid) (db w) (castObjectId (pageId o), placeholder i))
      (events w ++ [mkEvent Quarantine (castObjectId (pageId o)) (castObjectId bid)
         (placeholder i)
         (result_of (findOne (castObjectId (pageId o)) (castObjectId bid) (db w)))
         (assign1 (castObjectId bid) (db w) (castObjectId (pageId o), placeholder i))])
      (console w)))
      as (w' & evs & Hrun & Hdb & Hev & Hacc).
    { simpl. apply clear_of_step; [|done].
      pose proof (phase1_writes_NoDup i (o :: vs)) as Hnd. simpl in Hnd.
      by apply NoDup_cons in Hnd as [? _]. }
    eexists w', (_ :: evs). rewrite Hrun. split_and!; [done|done| |].
    + rewrite Hev. simpl. by rewrite <- app_assoc.
    + constructor; [|done]. apply result_of_accepted.
Qed.

Lemma phase2_writes_values orders : (phase2_writes orders).*2 = orders.*2.
Proof. unfold phase2_writes. by rewrite <- list_fmap_compose. Qed.

Lemma phase2_writes_ids orders :
  (phase2_writes orders).*1 = castObjectId <$> orders.*1.
Proof. unfold phase2_writes. by rewrite <- !list_fmap_compose. Qed.

Lemma phase2_writes_lookup orders k id n :
  orders !! k = Some (id, n) → phase2_writes orders !! k = Some (castObjectId id, n).
Proof. intros Hk. unfold phase2_writes. by rewrite list_lookup_fmap, Hk. Qed.

Lemma phase2_writes_elem orders id n :
  (id, n) ∈ orders → (castObjectId id, n) ∈ phase2_writes orders.
Proof.
  intros Hin. unfold phase2_writes. apply list_elem_of_fmap. by exists (id, n).
Qed.

Lemma phase2_writes_elem_inv orders p v :
  (p, v) ∈ phase2_writes orders → ∃ id, p = castObjectId id ∧ (id, v) ∈ orders.
Proof.
  unfold phase2_writes. intros ([id n] & [= -> ->] & Hin)%list_elem_of_fmap.
  by exists id.
Qed.

Lemma phase2_ok cast bid orders c w :
  NoDup orders.*2 → clear_of (castObjectId bid) (phase2_writes orders) (db w) →
  ∃ w' evs c', phase2 cast bid (valid_of <$> orders) c w = (w', inr c')
    ∧ db w' = assign (castObjectId bid) (phase2_writes orders) (db w)
    ∧ events w' = events w ++ evs ∧ Forall accepted evs.
Proof.
  revert c w. induction orders as [|[p v] orders IH]; intros c w Hnd Hclear; simpl.
  - exists w, [], c. by rewrite app_nil_r.
  - apply NoDup_cons in Hnd as [Hv Hnd].
    change (phase2_writes ((p, v) :: orders))
      with ((castObjectId p, v) :: phase2_writes orders) in Hclear |- *.
    unfold bind, set_final. simpl.
    rewrite update_page_clear by eauto using clear_of_head.
    edestruct (IH (match findOne (castObjectId p) (castObjectId bid) (db w) with
                   | Some _ => S c | None => c end)
      (mkWorld (assign1 (castObjectId bid) (db w) (castObjectId p, v))
        (events w ++ [mkEvent Commit (castObjectId p) (castObjectId bid) v
           (result_of (findOne (castObjectId p) (castObjectId bid) (db w)))
           (assign1 (castObjectId bid) (db w) (castObjectId p, v))]) (console w)))
      as (w' & evs & c' & Hrun & Hdb & Hev & Hacc); [done| |].
    { simpl. apply clear_of_step; [by rewrite phase2_writes_values|done]. }
    eexists w', (_ :: evs), c'. split_and!; [exact Hrun|done| |].
    + rewrite Hev. simpl. by rewrite <- app_assoc.
    + constructor; [|done]. apply result_of_accepted.
Qed.

(** ** Requests of the documented shape *)

Lemma id_string_JStr s : id_string (JStr s) = Some s.
Proof. by destruct s. Qed.

Lemma invalid_id_truthy s : invalid_id s = false → truthy (JStr s) = true.
Proof.
  unfold invalid_id. intros H.
  apply orb_false_iff in H as [H _]. apply orb_false_iff in H as [H _].
  by apply negb_false_iff in H.
Qed.

Lemma validate_entries orders acc w :
  Forall (λ o : string * Z, invalid_id o.1 = false) orders →
  validate (order_entry <$> orders) acc w = (w, inr (acc ++ (valid_of <$> orders))).
Proof.
  revert acc. induction orders as [|[p v] orders IH]; intros acc Hall; simpl.
  - by rewrite app_nil_r.
  - apply Forall_cons in Hall as [Hp Hall]. simpl in Hp.
    unfold bind, read_prop, read_id, ret. simpl. rewrite id_string_JStr, Hp.
    change (list_fmap _ _ order_entry orders) with (order_entry <$> orders).
    rewrite IH by done. by rewrite <- app_assoc.
Qed.

Lemma phase1_writes_ids i orders :
  (phase1_writes i (valid_of <$> orders)).*1 = castObjectId <$> orders.*1.
Proof.
  revert i. induction orders as [|o orders IH]; intros i; [done|].
  simpl. f_equal. apply IH.
Qed.

Lemma set_pageNumber_twice u v d :
  set_pageNumber v (set_pageNumber u d) = set_pageNumber v d.
Proof. done. Qed.

Lemma reordered_listed bid orders st p v d :
  NoDup (castObjectId <$> orders.*1) → (p, v) ∈ orders →
  st !! castObjectId p = Some d → bookId d = castObjectId bid →
  reordered bid orders st !! castObjectId p = Some (set_pageNumber v d).
Proof.
  intros Hnd Hin Hd Hb. unfold reordered.
  apply list_elem_of_lookup in Hin as [k Hk].
  rewrite <- (set_pageNumber_twice (placeholder (0 + k)) v d).
  apply assign_lookup_listed; [by rewrite phase2_writes_ids| |..|done].
  - apply list_elem_of_lookup. exists k. by apply phase2_writes_lookup.
  - apply assign_lookup_listed; [by rewrite phase1_writes_ids| |done..].
    apply list_elem_of_lookup. exists k.
    rewrite phase1_writes_lookup, list_lookup_fmap, Hk. done.
Qed.

Lemma reordered_other bid orders st q :
  q ∉ castObjectId <$> orders.*1 ∨ findOne q (castObjectId bid) st = None →
  reordered bid orders st !! q = st !! q.
Proof.
  unfold reordered. intros [Hq|Hq].
  - rewrite !assign_lookup_other; [done| |];
      by rewrite ?phase1_writes_ids, ?phase2_writes_ids.
  - rewrite !assign_lookup_unresolved; [done..|].
    by apply (only_positions_findOne _ st _ q (assign_only_positions _ _ st)).
Qed.

Lemma clear_of_after_phase1 bid orders st :
  NoDup (castObjectId <$> orders.*1) →
  (∀ p v k o, (p, v) ∈ orders → orders !! k = Some o →
     castObjectId o.1 ≠ castObjectId p → v ≠ placeholder k) →
  (∀ p v q d, (p, v) ∈ orders → st !! q = Some d → bookId d = castObjectId bid →
     q ∉ castObjectId <$> orders.*1 → pageNumber d ≠ v) →
  clear_of (castObjectId bid) (phase2_writes orders)
    (assign (castObjectId bid) (phase1_writes 0 (valid_of <$> orders)) st).
Proof.
  intros Hnd Hph Hun p' v q d Hin Hq Hb Hne.
  apply phase2_writes_elem_inv in Hin as (p & -> & Hin).
  destruct (decide (q ∈ castObjectId <$> orders.*1)) as [Hl|Hl].
  - apply list_elem_of_fmap in Hl as (q0 & -> & Hl).
    apply list_elem_of_fmap in Hl as ([q' u] & -> & Hl). simpl in *.
    apply list_elem_of_lookup in Hl as [k Hk].
    destruct (findOne (castObjectId q') (castObjectId bid) st) as [d0|] eqn:Hf.
    + apply findOne_Some in Hf as [Hd0 Hb0].
      erewrite assign_lookup_listed in Hq; [| |
        apply list_elem_of_lookup; exists k;
        by rewrite phase1_writes_lookup, list_lookup_fmap, Hk |done..].
      * simplify_eq/=. intros <-. by eapply (Hph p _ k (q', u)).
      * by rewrite phase1_writes_ids.
    + rewrite assign_lookup_unresolved in Hq by done.
      rewrite findOne_None in Hf. by destruct (Hf d).
  - rewrite assign_lookup_other in Hq by by rewrite phase1_writes_ids.
    by eapply Hun.
Qed.

(** The [try] block once the request has passed the two guards. *)
Lemma reorder_try_valid cast body bookIdStr items w :
  well_formed_request body bookIdStr items →
  reorder_try cast body w =
    (validPageOrders <- validate items [] ;;
     console_log (LogPhase1 (length validPageOrders)) ;;
     phase1 bookIdStr 0 validPageOrders ;;
     console_log LogPhase2 ;;
     updatedCount <- phase2 cast bookIdStr validPageOrders 0 ;;
     console_log (LogUpdated updatedCount) ;;
     updatedPages <- read_pages bookIdStr ;;
     console_log (LogSuccess (length updatedPages)) ;;
     ret (mkResponse 200 (Pages updatedPages)))
      (mkWorld (db w) (events w)
         ((console w ++ [LogReceived (field "bookId" body) (JArr items)])
            ++ [LogReordering (length items) bookIdStr])).
Proof.
  intros (Hb & Hs & Hid & Hpo). unfold reorder_try, read_id.
  rewrite Hpo, Hb, Hs. simpl. unfold bind at 1. unfold console_log at 1.
  unfold bind at 1. unfold ret at 1. rewrite Hid. reflexivity.
Qed.

Lemma request_well_formed bid entries :
  invalid_id bid = false → well_formed_request (request bid entries) bid entries.
Proof.
  intros Hbid. split_and!; [by apply invalid_id_truthy|apply id_string_JStr|done..].
Qed.

Lemma request_fields bid entries :
  field "bookId" (request bid entries) = JStr bid
  ∧ field "pageOrder" (request bid entries) = JArr entries.
Proof. done. Qed.

Lemma reorder_ok cast bid orders w :
  invalid_id bid = false →
  Forall (λ o : string * Z, invalid_id o.1 = false) orders →
  NoDup (castObjectId <$> orders.*1) → NoDup orders.*2 →
  clear_of (castObjectId bid) (phase1_writes 0 (valid_of <$> orders)) (db w) →
  (∀ p v k o, (p, v) ∈ orders → orders !! k = Some o →
     castObjectId o.1 ≠ castObjectId p → v ≠ placeholder k) →
  (∀ p v q d, (p, v) ∈ orders → db w !! q = Some d → bookId d = castObjectId bid →
     q ∉ castObjectId <$> orders.*1 → pageNumber d ≠ v) →
  ∃ w' evs,
    reorder cast (request bid (order_entry <$> orders)) w
      = (w', mkResponse 200 (Pages (find_sorted (castObjectId bid) (db w'))))
    ∧ db w' = reordered bid orders (db w)
    ∧ events w' = events w ++ evs ∧ Forall accepted evs.
Proof.
  intros Hbid Hids Hnd1 Hnd2 Hc1 Hph Hun.
  unfold reorder.
  rewrite (reorder_try_valid cast _ bid (order_entry <$> orders))
    by by apply request_well_formed.
  unfold bind at 1. rewrite validate_entries by done. rewrite app_nil_l.
  unfold bind at 1. unfold console_log at 1. unfold bind at 1.
  edestruct (phase1_ok bid (valid_of <$> orders) 0) as (w1 & evs1 & -> & Hdb1 & Hev1 & Hacc1);
    [exact Hc1|].
  unfold bind at 1. unfold console_log at 1. unfold bind at 1.
  edestruct (phase2_ok cast bid orders 0) as (w2 & evs2 & c & -> & Hdb2 & Hev2 & Hacc2);
    [done| |].
  { simpl. rewrite Hdb1. simpl. by apply clear_of_after_phase1. }
  simpl in *. eexists (mkWorld (db w2) (events w2) _), (evs1 ++ evs2).
  split_and!; simpl.
  - reflexivity.
  - by rewrite Hdb2, Hdb1.
  - by rewrite Hev2, Hev1, <- app_assoc.
  - by apply Forall_app.
Qed.

(** ** The sorted read *)

#[global] Instance by_pageNumber_total : Total by_pageNumber.
Proof. intros x y. unfold by_pageNumber. lia. Qed.

#[global] Instance by_pageNumber_trans : Transitive by_pageNumber.
Proof. intros x y z. unfold by_pageNumber. lia. Qed.

Lemma find_sorted_sorted bid st : Sorted by_pageNumber (find_sorted bid st).
Proof. apply Sorted_merge_sort. apply _. Qed.

Lemma find_sorted_elem bid (st : Store) id d :
  (id, d) ∈ find_sorted bid st ↔ st !! id = Some d ∧ bookId d = bid.
Proof.
  unfold find_sorted. rewrite merge_sort_Permutation.
  rewrite list_elem_of_filter, elem_of_map_to_list. simpl. tauto.
Qed.

Lemma find_sorted_NoDup bid (st : Store) : NoDup (find_sorted bid st).
Proof.
  unfold find_sorted. rewrite merge_sort_Permutation.
  apply NoDup_filter, NoDup_map_to_list.
Qed.

Lemma find_sorted_pages_of bid st :
  sorted_pages_of bid st (mkResponse 200 (Pages (find_sorted bid st))).
Proof.
  exists (find_sorted bid st).
  eauto using find_sorted_sorted, find_sorted_NoDup, find_sorted_elem.
Qed.

(** ** Relations that every step of a handler respects *)

Section Steps.
Variable R : relation World.
Variable bid : string.
Hypothesis R_refl : ∀ w, R w w.
Hypothesis R_trans : ∀ w1 w2 w3, R w1 w2 → R w2 w3 → R w1 w3.
Hypothesis R_console :
  ∀ w l, R w (mkWorld (db w) (events w) (console w ++ [l])).
Hypothesis R_update : ∀ ph id v w, R w (update_page ph id bid v w).1.

Lemma steps_ret {A} (a : A) : steps R (ret a).
Proof. intros w. apply R_refl. Qed.

Lemma steps_throw {A} e : steps R (@throw A e).
Proof. intros w. apply R_refl. Qed.

Lemma steps_bind {A B} (m : M A) (k : A → M B) :
  steps R m → (∀ a, steps R (k a)) → steps R (bind m k).
Proof.
  intros Hm Hk w. unfold bind. specialize (Hm w).
  destruct (m w) as [w' [e|a]]; [done|].
  eapply R_trans; [exact Hm|apply Hk].
Qed.

Lemma steps_console_log l : steps R (console_log l).
Proof. intros w. apply R_console. Qed.

Lemma steps_read_prop v k : steps R (read_prop v k).
Proof. unfold read_prop. destruct (get_prop v k); [apply steps_ret|apply steps_throw]. Qed.

Lemma steps_bind_ret {A B} (a : A) (k : A → M B) :
  steps R (k a) → steps R (bind (ret a) k).
Proof. intros Hk w. apply Hk. Qed.

Lemma steps_bind_throw {A B} e (k : A → M B) : steps R (bind (throw e) k).
Proof. intros w. apply R_refl. Qed.

Lemma steps_read_id raw : steps R (read_id raw).
Proof. unfold read_id. destruct (id_string raw); [apply steps_ret|apply steps_throw]. Qed.

Lemma steps_validate items acc : steps R (validate items acc).
Proof.
  revert acc. induction items as [|item items IH]; intros acc; simpl.
  - apply steps_ret.
  - apply steps_bind; [apply steps_read_prop|]. intros raw.
    apply steps_bind; [apply steps_read_id|]. intros s.
    destruct (invalid_id s).
    + apply steps_bind; [apply steps_console_log|]. intros _. apply IH.
    + apply steps_bind; [apply steps_read_prop|]. intros n. apply IH.
Qed.

Lemma steps_phase1 i vs : steps R (phase1 bid i vs).
Proof.
  revert i. induction vs as [|o vs IH]; intros i; simpl.
  - apply steps_ret.
  - apply steps_bind; [intros w; apply R_update|]. intros _. apply IH.
Qed.

Lemma steps_set_final cast id v : steps R (set_final cast id bid v).
Proof.
  unfold set_final. destruct (cast_pageNumber cast v).
  - intros w. apply R_update.
  - intros w. apply R_refl.
  - apply steps_throw.
Qed.

Lemma steps_phase2 cast vs c : steps R (phase2 cast bid vs c).
Proof.
  revert c. induction vs as [|o vs IH]; intros c; simpl.
  - apply steps_ret.
  - apply steps_bind; [apply steps_set_final|]. intros r. apply IH.
Qed.

Lemma steps_reorder_try cast body :
  (∀ s, id_string (field "bookId" body) = Some s → s = bid) →
  steps R (reorder_try cast body).
Proof.
  intros Hbid. unfold reorder_try.
  apply steps_bind; [apply steps_console_log|]. intros _.
  destruct (_ || _); [apply steps_ret|].
  unfold read_id.
  destruct (id_string (field "bookId" body)) as [s|] eqn:Hs;
    [|apply steps_bind_throw].
  apply steps_bind_ret. rewrite (Hbid s eq_refl).
  destruct (invalid_id _).
  { apply steps_bind; [apply steps_console_log|]. intros _. apply steps_ret. }
  apply steps_bind; [apply steps_console_log|]. intros _.
  apply steps_bind; [apply steps_validate|]. intros vs.
  apply steps_bind; [apply steps_console_log|]. intros _.
  apply steps_bind; [apply steps_phase1|]. intros _.
  apply steps_bind; [apply steps_console_log|]. intros _.
  apply steps_bind; [apply steps_phase2|]. intros c.
  apply steps_bind; [apply steps_console_log|]. intros _.
  apply steps_bind; [intros w; apply R_refl|]. intros ps.
  apply steps_bind; [apply steps_console_log|]. intros _.
  apply steps_ret.
Qed.

Lemma steps_reorder cast body w :
  (∀ s, id_string (field "bookId" body) = Some s → s = bid) →
  R w (reorder cast body w).1.
Proof.
  intros Hbid. unfold reorder.
  pose proof (steps_reorder_try cast body Hbid w) as H.
  destruct (reorder_try cast body w) as [w' [e|res]]; simpl in *; [|done].
  eapply R_trans; [exact H|apply R_console].
Qed.
End Steps.

(** ** Frame of the reorder *)

Lemma update_page_only_positions ph id bid v w :
  only_positions_of (castObjectId bid) (db w) (db (update_page ph id bid v w).1).
Proof.
  unfold update_page.
  destruct (findOneAndUpdate _ _ v (db w)) as [e|[st r]] eqn:Heq; simpl.
  - apply only_positions_of_refl.
  - by eapply findOneAndUpdate_only_positions.
Qed.

(** The two ways a request ends before its identifiers are looked at. *)
Lemma reorder_first_guard cast body w :
  lacks_fields body = true →
  reorder cast body w =
    (logged w (LogReceived (field "bookId" body) (field "pageOrder" body)),
     mkResponse 400 (Message "bookId and pageOrder array are required")).
Proof.
  intros Hguard. unfold reorder, reorder_try.
  unfold bind at 1. unfold console_log at 1. fold (lacks_fields body).
  by rewrite Hguard.
Qed.

Lemma reorder_unprintable cast body w :
  unprintable_request body →
  reorder cast body w =
    (logged (logged w (LogReceived (field "bookId" body) (field "pageOrder" body)))
       (ErrReorder TypeError),
     mkResponse 500 (Failure TypeError)).
Proof.
  intros [Hguard Hs]. unfold reorder, reorder_try, read_id.
  unfold bind at 1. unfold console_log at 1. fold (lacks_fields body).
  by rewrite Hguard, Hs.
Qed.

(** C9: whatever the request and however the operation ends, a page is
    neither created nor deleted, every page keeps its parent and its
    content fields, and a page of another parent than the one that the
    [bookId] of the request names (listed in the request or not) is left
    exactly as it was.  When the [bookId] has no string at all the store is
    left as it was. *)
Theorem reorder_changes_only_positions cast body w :
  match id_string (field "bookId" body) with
  | Some bid =>
      only_positions_of (castObjectId bid) (db w) (db (reorder cast body w).1)
  | None => db (reorder cast body w).1 = db w
  end.
Proof.
  destruct (id_string (field "bookId" body)) as [bid|] eqn:Hs.
  - apply (steps_reorder
      (λ w1 w2, only_positions_of (castObjectId bid) (db w1) (db w2)) bid).
    + intros w1. apply only_positions_of_refl.
    + intros w1 w2 w3. apply only_positions_of_trans.
    + intros w1 l. apply only_positions_of_refl.
    + intros ph id v w1. apply update_page_only_positions.
    + intros s Hs'. congruence.
  - destruct (lacks_fields body) eqn:Hguard.
    + by rewrite reorder_first_guard.
    + by rewrite reorder_unprintable.
Qed.

Example other_parent_untouched :
  let out := reorder strict_cast (request idP [entry idA 2; entry idC 5; entry idB 1])
               (start two_books) in
  status out.2 = 200
  ∧ db out.1 !! idC = Some (page idQ 1 "c")
  ∧ db out.1 !! idA = Some (page idP 2 "a")
  ∧ db out.1 !! idB = Some (page idP 1 "b").
Proof. cbv zeta. split_and!; by_evaluation. Qed.

(** ** Uniqueness of positions at rest *)

Lemma update_page_unique ph id bid v w :
  unique_index (db w) → unique_throughout w (update_page ph id bid v w).1.
Proof.
  intros Hu. unfold update_page, unique_throughout.
  destruct (findOneAndUpdate _ _ v (db w)) as [e|[st r]] eqn:Heq; simpl.
  - split; [done|]. eexists [_]. split; [done|]. by repeat constructor.
  - apply findOneAndUpdate_unique_index in Heq; [|done].
    split; [done|]. eexists [_]. split; [done|]. by repeat constructor.
Qed.

(** C2: starting from a store with unique positions, the store after every
    single write of the reorder (so after Phase 1, after Phase 2, and when
    the operation has ended, however it ends) has no two pages of one
    parent at the same position, be it a negative placeholder or a
    positive position. *)
Theorem reorder_positions_unique_at_rest cast body w :
  unique_index (db w) →
  let w' := (reorder cast body w).1 in
  unique_index (db w') ∧
  ∃ evs, events w' = events w ++ evs ∧
    ∀ e i j p q, e ∈ evs →
      ev_db e !! i = Some p → ev_db e !! j = Some q →
      bookId p = bookId q → i ≠ j → pageNumber p ≠ pageNumber q.
Proof.
  intros Hu.
  pose proof (steps_reorder
    (λ w1 w2, unique_index (db w1) → unique_throughout w1 w2)
    (default "" (id_string (field "bookId" body)))) as Hsteps.
  destruct (Hsteps) with (cast := cast) (body := body) (w := w)
    as (Hu' & evs & Hev & Hall); try done.
  - intros w1 Hu1. split; [done|]. exists []. by rewrite app_nil_r.
  - intros w1 w2 w3 H12 H23 Hu1.
    destruct (H12 Hu1) as (Hu2 & evs1 & Hev1 & Hall1).
    destruct (H23 Hu2) as (Hu3 & evs2 & Hev2 & Hall2).
    split; [done|]. exists (evs1 ++ evs2).
    split; [by rewrite Hev2, Hev1, <- app_assoc|by apply Forall_app].
  - intros w1 l Hu1. split; [done|]. exists []. by rewrite app_nil_r.
  - intros ph id v w1 Hu1. by apply update_page_unique.
  - by intros s ->.
  - split; [done|]. exists evs. split; [done|].
    intros e i j p q He Hi Hj Hb Hne Hn. apply Hne.
    rewrite Forall_forall in Hall. by eapply (Hall e He i j p q).
Qed.

(** ** Validation of the request, and the listing *)

Lemma reorder_guards cast body w :
  invalid_request body →
  reorder cast body w =
    (mkWorld (db w) (events w)
       (console w ++ LogReceived (field "bookId" body) (field "pageOrder" body)
          :: (if lacks_fields body then []
              else from_option (λ s, [ErrInvalidBookId s]) []
                     (id_string (field "bookId" body)))),
     mkResponse 400
       (Message (if lacks_fields body
                 then "bookId and pageOrder array are required"
                 else "Invalid bookId format"))).
Proof.
  intros Hbad.
  destruct (lacks_fields body) eqn:Hguard; [by rewrite reorder_first_guard|].
  unfold reorder, reorder_try, read_id.
  unfold bind at 1. unfold console_log at 1. fold (lacks_fields body).
  rewrite Hguard.
  unfold lacks_fields in Hguard.
  apply orb_false_iff in Hguard as [Hguard Harr].
  apply orb_false_iff in Hguard as [Hb Hpo].
  apply negb_false_iff in Harr, Hb, Hpo.
  destruct Hbad as [Hbad|[(s & Hs & Hbad)|[Hbad|Hbad]]]; try congruence.
  rewrite Hs. unfold bind at 1. unfold ret at 1. rewrite Hbad. simpl.
  by rewrite <- app_assoc.
Qed.



Lemma invalid_id_hex s : invalid_id s = false → hex24_test s = true.
Proof.
  unfold invalid_id. intros H.
  apply orb_false_iff in H as [_ H]. by apply negb_false_iff in H.
Qed.

Lemma cast_param_hex other s :
  invalid_id s = false → cast_param other s = Some (castObjectId s).
Proof. intros H. unfold cast_param. by rewrite (invalid_id_hex s H). Qed.

(** C8: an identifier that the driver's validity test turns down gets the
    empty list with status 200.  An identifier of 24 hexadecimal digits
    gets the pages of the parent that the digits spell, in whichever case
    its letters are, each page once, in ascending order of position; so
    does any other identifier that the driver accepts, for the parent
    that it is cast to. *)
Theorem get_book_pages_lenient valid other bookId st :
  (ObjectId_isValid valid bookId = false →
     get_book_pages valid other bookId st = mkResponse 200 (Pages []))
  ∧ (invalid_id bookId = false →
     sorted_pages_of (castObjectId bookId) st (get_book_pages valid other bookId st))
  ∧ (ObjectId_isValid valid bookId = true →
     ∀ bid, cast_param other bookId = Some bid →
     sorted_pages_of bid st (get_book_pages valid other bookId st)).
Proof.
  unfold get_book_pages. split_and!.
  - by intros ->.
  - intros Hid. unfold ObjectId_isValid.
    rewrite (invalid_id_hex _ Hid), cast_param_hex by done. simpl.
    apply find_sorted_pages_of.
  - intros -> bid ->. simpl. apply find_sorted_pages_of.
Qed.

(** ** Requests that are applied as asked *)

Lemma placeholder_in_range k n : k < n → placeholder_range n (placeholder k).
Proof. unfold placeholder_range, placeholder. lia. Qed.

Lemma phase1_writes_elem i vs p v :
  (p, v) ∈ phase1_writes i vs →
  ∃ k o, vs !! k = Some o ∧ p = castObjectId (pageId o) ∧ v = placeholder (i + k).
Proof.
  intros [k Hk]%list_elem_of_lookup. rewrite phase1_writes_lookup in Hk.
  destruct (vs !! k) as [o|] eqn:Ho; simplify_eq/=. by exists k, o.
Qed.

Lemma clear_of_phase1_range bid orders (st : Store) :
  (∀ q d, st !! q = Some d → bookId d = bid →
     ¬ placeholder_range (length orders) (pageNumber d)) →
  clear_of bid (phase1_writes 0 (valid_of <$> orders)) st.
Proof.
  intros Hfree p v q d Hin Hq Hb _ Hv.
  apply phase1_writes_elem in Hin as (k & o & Hk & _ & ->).
  apply (Hfree q d Hq Hb). rewrite Hv. apply placeholder_in_range.
  apply lookup_lt_Some in Hk. by rewrite length_fmap in Hk.
Qed.

(** C1, amended: a request that gives N distinct targets to N distinct
    existing pages of one parent is applied as asked, and answered with the
    sorted page set, provided that no page of the parent holds one of the
    placeholders -N..-1 beforehand, that no target is one of -N..-1, and
    that no target is the position of a page of the parent that the
    request does not list.  The parent and the pages are those that the
    identifiers of the request spell, in whichever case their letters
    are. *)
Theorem reorder_applies_distinct_targets cast bid orders w :
  distinct_existing bid orders (db w) →
  (∀ q d, db w !! q = Some d → bookId d = castObjectId bid →
     ¬ placeholder_range (length orders) (pageNumber d)) →
  (∀ id n, (id, n) ∈ orders → ¬ placeholder_range (length orders) n) →
  (∀ id n q d, (id, n) ∈ orders → db w !! q = Some d →
     bookId d = castObjectId bid →
     q ∉ castObjectId <$> orders.*1 → pageNumber d ≠ n) →
  applied bid orders (reorder cast (request bid (order_entry <$> orders)) w).
Proof.
  intros (Hbid & Hnd1 & Hnd2 & Hex) Hfree Htargets Hunlisted.
  destruct (reorder_ok cast bid orders w) as (w' & evs & -> & Hdb & _); try done.
  - apply Forall_forall. intros [id n] Hin. by apply (Hex id n).
  - by apply clear_of_phase1_range.
  - intros p v k o Hin Hk _ ->. apply (Htargets p _ Hin).
    apply placeholder_in_range. by apply lookup_lt_Some in Hk.
  - split; simpl; [|apply find_sorted_pages_of].
    intros id n Hin. destruct (Hex id n Hin) as (_ & d & Hd & Hb).
    rewrite Hdb. by erewrite reordered_listed.
Qed.

(** C10: the new position is not validated.  For any integer [n], a
    request that lists one existing page with target [n] succeeds when no
    other page of the parent is at -1 or at [n], and leaves the page at
    [n]; with [n] negative, the page is at rest at a negative position. *)
Theorem reorder_commits_any_integer cast bid a n w d :
  invalid_id bid = false → invalid_id a = false →
  db w !! castObjectId a = Some d → bookId d = castObjectId bid →
  (∀ q d', db w !! q = Some d' → bookId d' = castObjectId bid →
     q ≠ castObjectId a → pageNumber d' ≠ (-1)%Z ∧ pageNumber d' ≠ n) →
  let out := reorder cast (request bid [entry a n]) w in
  status out.2 = 200
  ∧ db out.1 !! castObjectId a = Some (set_pageNumber n d)
  ∧ ((n < 0)%Z →
       ∃ d', db out.1 !! castObjectId a = Some d' ∧ (pageNumber d' < 0)%Z).
Proof.
  intros Hbid Ha Hd Hb Hothers. cbv zeta.
  change (request bid [entry a n]) with (request bid (order_entry <$> [(a, n)])).
  destruct (reorder_ok cast bid [(a, n)] w) as (w' & evs & -> & Hdb & _); try done.
  - by repeat constructor.
  - apply NoDup_singleton.
  - apply NoDup_singleton.
  - intros p v q d' Hin Hq Hbq Hne.
    apply list_elem_of_singleton in Hin. simplify_eq. by apply (Hothers q d').
  - intros p v k o Hin Hk Hne. apply list_elem_of_singleton in Hin.
    apply list_elem_of_lookup_2, list_elem_of_singleton in Hk. by simplify_eq.
  - intros p v q d' Hin Hq Hbq Hnl. apply list_elem_of_singleton in Hin.
    simplify_eq. apply (Hothers q d'); [done..|].
    intros ->. apply Hnl. simpl. by apply list_elem_of_singleton.
  - simpl.
    assert (db w' !! castObjectId a = Some (set_pageNumber n d)) as Hfinal.
    { rewrite Hdb. eapply reordered_listed; try done.
      + apply NoDup_singleton.
      + by apply list_elem_of_singleton. }
    split_and!; [done..|]. intros Hn. by exists (set_pageNumber n d).
Qed.

(** ** Checking a concrete store *)

Lemma map_Forall_checked (P : string → Page → Prop) `{∀ i x, Decision (P i x)}
    (st : Store) :
  bool_decide (map_Forall P st) = true → ∀ q d, st !! q = Some d → P q d.
Proof. intros Hc%bool_decide_eq_true. exact Hc. Qed.

Lemma unique_index_checked (st : Store) :
  bool_decide (unique_index st) = true → unique_index st.
Proof. by intros Hc%bool_decide_eq_true. Qed.

Lemma NoDup_checked {A} `{EqDecision A} (l : list A) :
  bool_decide (NoDup l) = true → NoDup l.
Proof. by intros Hc%bool_decide_eq_true. Qed.

Example book3_unique : unique_index book3.
Proof. apply unique_index_checked. vm_compute. reflexivity. Qed.

Lemma book3_distinct_existing orders :
  bool_decide (NoDup (castObjectId <$> orders.*1)) = true →
  bool_decide (NoDup orders.*2) = true →
  Forall (λ o : string * Z, o.1 ∈ [idA; idB; idC; idA_upper; idB_upper]) orders →
  distinct_existing idP orders book3
  ∧ distinct_existing idP_upper orders book3.
Proof.
  intros H1 H2 Hall.
  split; (split_and!; [by_evaluation|by apply NoDup_checked..|]).
  all: intros id n Hin; rewrite Forall_forall in Hall; specialize (Hall _ Hin);
    simpl in Hall; list_cases Hall.
  all: split; [by_evaluation|].
  all: first [by exists (page idP 1 "a") | by exists (page idP 2 "b")
             | by exists (page idP 3 "c")].
Qed.

(** Every key of the sample book is one of its three pages. *)
Lemma book3_keys q d :
  book3 !! q = Some d → q = idA ∨ q = idB ∨ q = idC.
Proof.
  apply (map_Forall_checked (λ q _, q = idA ∨ q = idB ∨ q = idC) book3).
  by_evaluation.
Qed.

Lemma failed_not_applied bid orders out :
  status out.2 = 500 → ¬ applied bid orders out.
Proof. intros Hs (_ & ps & Hres & _). rewrite Hres in Hs. discriminate Hs. Qed.

(** C1 as stated fails, in three ways, each from a store with unique
    positions and a request that gives distinct targets to distinct
    existing pages.  (1) Page A alone is sent to position 3, which the
    unlisted page C holds: Phase 2 is rejected by the unique index, the
    answer is a 500 and A stays at its placeholder -1.  (2) A is sent to
    -2, the placeholder that B holds when Phase 2 starts.  (3) B is at -1
    beforehand, the placeholder that Phase 1 gives to A. *)
Lemma reorder_distinct_targets_rejected :
  (let orders := [(idA, 3%Z)] in
   let out := reorder strict_cast (request idP (order_entry <$> orders)) (start book3) in
   distinct_existing idP orders book3 ∧ unique_index book3
   ∧ out.2 = mkResponse 500 (Failure (MongoServerError E11000))
   ∧ pageNumber <$> db out.1 !! idA = Some (-1)%Z
   ∧ ¬ applied idP orders out)
  ∧ (let orders := [(idA, (-2)%Z); (idB, 5%Z); (idC, 6%Z)] in
     let out := reorder strict_cast (request idP (order_entry <$> orders)) (start book3) in
     distinct_existing idP orders book3
     ∧ out.2 = mkResponse 500 (Failure (MongoServerError E11000))
     ∧ ¬ applied idP orders out)
  ∧ (let orders := [(idA, 5%Z); (idB, 6%Z)] in
     let out := reorder strict_cast (request idP (order_entry <$> orders))
                  (start book_left_over) in
     distinct_existing idP orders book_left_over ∧ unique_index book_left_over
     ∧ out.2 = mkResponse 500 (Failure (MongoServerError E11000))
     ∧ ¬ applied idP orders out).
Proof.
  cbv zeta. split_and!.
  - apply book3_distinct_existing; [by_evaluation..|]. repeat constructor.
  - apply book3_unique.
  - by_evaluation.
  - by_evaluation.
  - apply failed_not_applied. by_evaluation.
  - apply book3_distinct_existing; [by_evaluation..|]. repeat constructor.
  - by_evaluation.
  - apply failed_not_applied. by_evaluation.
  - split_and!; [by_evaluation|apply NoDup_checked; by_evaluation..|].
    intros id n Hin. list_cases Hin.
    + split; [by_evaluation|]. by exists (page idP 1 "a").
    + split; [by_evaluation|]. by exists (page idP (-1) "b").
  - apply unique_index_checked. by_evaluation.
  - by_evaluation.
  - apply failed_not_applied. by_evaluation.
Qed.

Lemma reorder_applies_distinct_targets_witness :
  applied idP_upper [(idA_upper, 3%Z); (idB, 1%Z); (idC, 2%Z)]
    (reorder strict_cast
       (request idP_upper (order_entry <$> [(idA_upper, 3%Z); (idB, 1%Z); (idC, 2%Z)]))
       (start book3)).
Proof.
  apply (reorder_applies_distinct_targets strict_cast idP_upper
           [(idA_upper, 3%Z); (idB, 1%Z); (idC, 2%Z)] (start book3)).
  - apply book3_distinct_existing; [by_evaluation..|].
    repeat constructor; set_solver.
  - apply (map_Forall_checked
      (λ _ d, bookId d = idP → ¬ placeholder_range 3 (pageNumber d)) book3).
    by_evaluation.
  - intros id n Hin. list_cases Hin; unfold placeholder_range; simpl; lia.
  - intros id n q d Hin Hq _ Hnl. exfalso. apply Hnl.
    destruct (book3_keys q d Hq) as [-> | [-> | ->]]; vm_compute;
      repeat constructor.
Defined.

(** The request of the specification's example with the identifiers of
    the book and of page A written in upper case: the same pages are
    moved. *)
Example spec_example_upper_case :
  (reorder strict_cast
     (request idP_upper [entry idA_upper 3; entry idB 1; entry idC 2]) (start book3)).2
  = mkResponse 200 (Pages [(idB, page idP 1 "b"); (idC, page idP 2 "c"); (idA, page idP 3 "a")]).
Proof. by_evaluation. Qed.

Lemma reorder_commits_any_integer_witness :
  let out := reorder strict_cast (request idP [entry idA (-7)]) (start book1) in
  status out.2 = 200
  ∧ db out.1 !! castObjectId idA = Some (set_pageNumber (-7) (page idP 1 "a"))
  ∧ ((-7 < 0)%Z →
       ∃ d', db out.1 !! castObjectId idA = Some d' ∧ (pageNumber d' < 0)%Z).
Proof.
  apply (reorder_commits_any_integer strict_cast idP idA (-7)
           (start book1) (page idP 1 "a")).
  - by_evaluation.
  - by_evaluation.
  - by_evaluation.
  - reflexivity.
  - apply (map_Forall_checked
      (λ q d', bookId d' = castObjectId idP → q ≠ castObjectId idA →
         pageNumber d' ≠ (-1)%Z ∧ pageNumber d' ≠ (-7)%Z) book1).
    by_evaluation.
Defined.

Lemma reorder_positions_unique_at_rest_witness :
  let w' := (reorder strict_cast (request idP [entry idA 3]) (start book3)).1 in
  unique_index (db w') ∧
  ∃ evs, events w' = events (start book3) ++ evs ∧
    ∀ e i j p q, e ∈ evs →
      ev_db e !! i = Some p → ev_db e !! j = Some q →
      bookId p = bookId q → i ≠ j → pageNumber p ≠ pageNumber q.
Proof.
  apply (reorder_positions_unique_at_rest strict_cast
           (request idP [entry idA 3]) (start book3)).
  apply unique_index_checked. by_evaluation.
Defined.


Lemma get_book_pages_lenient_witness :
  get_book_pages hex_only_valid hex_only "page-book"%string book3
  = mkResponse 200 (Pages [])
  ∧ sorted_pages_of (castObjectId idP) book3
      (get_book_pages hex_only_valid hex_only idP book3)
  ∧ sorted_pages_of (castObjectId idP_upper) book3
      (get_book_pages hex_only_valid hex_only idP_upper book3).
Proof.
  split_and!.
  - apply (proj1 (get_book_pages_lenient hex_only_valid hex_only "page-book"%string
                    book3)).
    by_evaluation.
  - apply (proj1 (proj2 (get_book_pages_lenient hex_only_valid hex_only idP book3))).
    by_evaluation.
  - apply (proj1 (proj2 (get_book_pages_lenient hex_only_valid hex_only idP_upper
                           book3))).
    by_evaluation.
Defined.

Example upper_case_parent_lists_the_book :
  get_book_pages hex_only_valid hex_only idP_upper book3
  = mkResponse 200 (Pages [(idA, page idP 1 "a"); (idB, page idP 2 "b"); (idC, page idP 3 "c")]).
Proof. by_evaluation. Qed.

(** ** The stages of an accepted request *)

Lemma reorder_pipeline cast body bid items w :
  well_formed_request body bid items →
  pipeline cast bid items
    (logged (logged w (LogReceived (field "bookId" body) (JArr items)))
       (LogReordering (length items) bid))
    (reorder cast body w).
Proof.
  intros Hwf. unfold reorder.
  rewrite (reorder_try_valid cast body bid items) by done.
  change (mkWorld (db w) (events w) _) with
    (logged (logged w (LogReceived (field "bookId" body) (JArr items)))
       (LogReordering (length items) bid)).
  set (w0 := logged _ _).
  unfold bind at 1. destruct (validate items [] w0) as [w1 [e|vs]] eqn:Hv.
  { by eapply pipe_validate_throws. }
  unfold bind at 1. unfold console_log at 1. unfold bind at 1.
  change (mkWorld (db w1) (events w1) (console w1 ++ [LogPhase1 (length vs)]))
    with (logged w1 (LogPhase1 (length vs))).
  destruct (phase1 bid 0 vs _) as [w2 [e|[]]] eqn:Hp1.
  { by eapply pipe_phase1_throws. }
  unfold bind at 1. unfold console_log at 1. unfold bind at 1.
  change (mkWorld (db w2) (events w2) (console w2 ++ [LogPhase2]))
    with (logged w2 LogPhase2).
  destruct (phase2 cast bid vs 0 _) as [w3 [e|c]] eqn:Hp2.
  { by eapply pipe_phase2_throws. }
  exact (pipe_done cast bid items w0 w1 vs w2 w3 c Hv Hp1 Hp2).
Qed.

Lemma validate_cons item items acc w :
  validate (item :: items) acc w =
    match get_prop item "pageId" with
    | None => (w, inl TypeError)
    | Some raw =>
        match id_string raw with
        | None => (w, inl TypeError)
        | Some pageIdStr =>
            if invalid_id pageIdStr
            then validate items acc (logged w (WarnInvalidPageId pageIdStr))
            else match get_prop item "newPageNumber" with
                 | None => (w, inl TypeError)
                 | Some n => validate items (acc ++ [mkValidOrder pageIdStr n]) w
                 end
        end
    end.
Proof.
  simpl. unfold bind at 1. unfold read_prop at 1.
  destruct (get_prop item "pageId") as [raw|]; [|done]. simpl.
  unfold bind at 1. unfold read_id at 1.
  destruct (id_string raw) as [pageIdStr|]; [|done]. simpl.
  destruct (invalid_id pageIdStr); [done|].
  unfold bind at 1. unfold read_prop at 1.
  by destruct (get_prop item "newPageNumber").
Qed.

Lemma world_eta w : mkWorld (db w) (events w) (console w) = w.
Proof. by destruct w. Qed.

Lemma validate_run items acc w :
  validate items acc w =
    (mkWorld (db w) (events w) (console w ++ warnings items),
     match validPageOrders items with
     | inl e => inl e
     | inr vs => inr (acc ++ vs)
     end).
Proof.
  revert acc w. induction items as [|item items IH]; intros acc w.
  - unfold warnings, validPageOrders. simpl. by rewrite !app_nil_r, world_eta.
  - unfold warnings, validPageOrders. rewrite !validate_cons.
    destruct (get_prop item "pageId") as [raw|]; simpl;
      [|by rewrite app_nil_r, world_eta].
    destruct (id_string raw) as [pageIdStr|]; simpl;
      [|by rewrite app_nil_r, world_eta].
    destruct (invalid_id pageIdStr).
    + rewrite !IH. simpl. rewrite <- app_assoc.
      by destruct (validPageOrders items).
    + destruct (get_prop item "newPageNumber") as [n|]; simpl;
        [|by rewrite app_nil_r, world_eta].
      rewrite !IH. simpl. destruct (validPageOrders items); [done|].
      by rewrite <- app_assoc.
Qed.

Lemma validate_value items w w1 r :
  validate items [] w = (w1, r) →
  r = validPageOrders items ∧ db w1 = db w ∧ events w1 = events w
  ∧ console w1 = console w ++ warnings items.
Proof.
  rewrite validate_run. intros [= <- <-]. simpl.
  by destruct (validPageOrders items).
Qed.

(** ** The write log of the two phases *)

Lemma update_page_event ph id bid v w :
  ∃ e, events (update_page ph id bid v w).1 = events w ++ [e]
    ∧ ev_phase e = ph ∧ ev_book e = castObjectId bid
    ∧ ev_id e = castObjectId id ∧ ev_value e = v
    ∧ (ev_result e = Updated → pageNumber <$> ev_db e !! castObjectId id = Some v)
    ∧ (accepted e ↔ ∃ r, (update_page ph id bid v w).2 = inr r).
Proof.
  unfold update_page.
  destruct (findOneAndUpdate_spec (castObjectId id) (castObjectId bid) v (db w))
    as [d Hd Hb Hc|d Hd Hb Hc|Hn];
    simpl; eexists; (split; [reflexivity|]); simpl; split_and!; try done.
  - intros _. by rewrite lookup_insert_eq.
  - unfold accepted; simpl. split; [eauto|done].
  - unfold accepted; simpl. split; [done|]. by intros [r ?].
  - unfold accepted; simpl. split; [eauto|done].
Qed.

Lemma phase1_events bid vs i w :
  ∃ evs, events (phase1 bid i vs w).1 = events w ++ evs
    ∧ (∀ k e, evs !! k = Some e → quarantine_event bid i vs k e)
    ∧ (Forall accepted evs ↔ (phase1 bid i vs w).2 = inr tt)
    ∧ ((phase1 bid i vs w).2 = inr tt → length evs = length vs).
Proof.
  revert i w. induction vs as [|o vs IH]; intros i w.
  - exists []. simpl. rewrite app_nil_r. split_and!; try done.
  - simpl. unfold bind.
    destruct (update_page_event Quarantine (pageId o) bid (placeholder i) w)
      as (e & Hev & Hph & Hbk & Hid & Hval & Hupd & Hacc).
    destruct (update_page Quarantine (pageId o) bid (placeholder i) w)
      as [w1 [x|r]] eqn:Hup; simpl in *.
    + exists [e]. split_and!; try done.
      * intros [|k] e' Hk; simplify_eq/=.
        unfold quarantine_event. rewrite Nat.add_0_r, Hid, Hval. by split_and!.
      * split; [|done]. intros [He _]%Forall_cons.
        apply Hacc in He as [r ?]. done.
    + destruct (IH (S i) w1) as (evs & Hevs & Hk & Hok & Hlen).
      exists (e :: evs). split_and!.
      * rewrite Hevs, Hev. by rewrite <- app_assoc.
      * intros [|k] e' Hk'; simplify_eq/=.
        -- unfold quarantine_event. rewrite Nat.add_0_r, Hid, Hval. by split_and!.
        -- specialize (Hk k e' Hk'). unfold quarantine_event in *.
           by rewrite Nat.add_succ_r.
      * rewrite Forall_cons, Hok. split; [tauto|].
        intros ?. split; [|done]. apply Hacc. eauto.
      * intros Hr. simpl. f_equal. by apply Hlen.
Qed.

Lemma set_final_events cast id bid v w :
  ∃ evs, events (set_final cast id bid v w).1 = events w ++ evs
    ∧ Forall (λ e, ev_phase e = Commit ∧ ev_book e = castObjectId bid
                   ∧ ev_id e = castObjectId id) evs
    ∧ ((∃ r, (set_final cast id bid v w).2 = inr r) → Forall accepted evs).
Proof.
  unfold set_final. destruct (cast_pageNumber cast v) as [z| |].
  - destruct (update_page_event Commit id bid z w)
      as (e & Hev & Hph & Hbk & Hid & _ & _ & Hacc).
    exists [e]. split_and!; [done|by repeat constructor|].
    intros Hr. constructor; [|done]. by apply Hacc.
  - exists []. simpl. by rewrite app_nil_r.
  - exists []. simpl. by rewrite app_nil_r.
Qed.

Lemma phase2_events cast bid vs c w :
  ∃ evs, events (phase2 cast bid vs c w).1 = events w ++ evs
    ∧ Forall (λ e, ev_phase e = Commit ∧ ev_book e = castObjectId bid) evs
    ∧ ((∃ c', (phase2 cast bid vs c w).2 = inr c') → Forall accepted evs).
Proof.
  revert c w. induction vs as [|o vs IH]; intros c w.
  - exists []. simpl. by rewrite app_nil_r.
  - simpl. unfold bind.
    destruct (set_final_events cast (pageId o) bid (newPageNumber o) w)
      as (evs0 & Hev0 & Hall0 & Hacc0).
    destruct (set_final cast (pageId o) bid (newPageNumber o) w)
      as [w1 [x|r]] eqn:Hset; simpl in *.
    + exists evs0. split_and!; [done| |by intros [c' ?]].
      eapply Forall_impl; [exact Hall0|]. by intros e (? & ? & _).
    + destruct (IH (match r with Some _ => S c | None => c end) w1)
        as (evs & Hevs & Hall & Hacc).
      exists (evs0 ++ evs). split_and!.
      * rewrite Hevs, Hev0. by rewrite <- app_assoc.
      * apply Forall_app. split; [|done].
        eapply Forall_impl; [exact Hall0|]. by intros e (? & ? & _).
      * intros Hr. apply Forall_app. split; [apply Hacc0; eauto|by apply Hacc].
Qed.

(** With no page of the parent at a value that PHASE 1 is about to write,
    every one of its writes goes through, and the page that an entry
    names is stored at the entry's placeholder once its write has
    returned. *)
Lemma phase1_assigned bid vs i w :
  clear_of (castObjectId bid) (phase1_writes i vs) (db w) →
  ∃ evs, events (phase1 bid i vs w).1 = events w ++ evs
    ∧ length evs = length vs
    ∧ ∀ k o d, vs !! k = Some o →
        db w !! castObjectId (pageId o) = Some d → bookId d = castObjectId bid →
        ∃ e, evs !! k = Some e ∧ ev_result e = Updated
             ∧ ev_db e !! castObjectId (pageId o)
               = Some (set_pageNumber (placeholder (i + k)) d).
Proof.
  revert i w. induction vs as [|o0 vs IH]; intros i w Hclear.
  - exists []. simpl. rewrite app_nil_r. split_and!; [done..|].
    intros k o d Hk. done.
  - cbn [phase1]. unfold bind.
    rewrite update_page_clear by eauto using clear_of_head.
    set (B := castObjectId bid) in *. set (p0 := castObjectId (pageId o0)) in *.
    set (e0 := mkEvent Quarantine p0 B (placeholder i)
                 (result_of (findOne p0 B (db w)))
                 (assign1 B (db w) (p0, placeholder i))).
    set (w1 := mkWorld (assign1 B (db w) (p0, placeholder i))
                 (events w ++ [e0]) (console w)).
    destruct (IH (S i) w1) as (evs & Hev & Hlen & Hat).
    { simpl. apply clear_of_step; [|done].
      pose proof (phase1_writes_NoDup i (o0 :: vs)) as Hnd. simpl in Hnd.
      by apply NoDup_cons in Hnd as [? _]. }
    exists (e0 :: evs). split_and!.
    + rewrite Hev. simpl. by rewrite <- app_assoc.
    + simpl. by rewrite Hlen.
    + intros [|k] o d Hk Hd Hb; simpl in Hk.
      * injection Hk as <-. exists e0. rewrite Nat.add_0_r. split_and!; [done| |].
        -- unfold e0. simpl.
           by assert (findOne p0 B (db w) = Some d) as -> by by apply findOne_Some.
        -- unfold e0. simpl. by apply assign1_lookup_eq.
      * assert (∃ d1, db w1 !! castObjectId (pageId o) = Some d1 ∧ bookId d1 = B
                      ∧ ∀ v, set_pageNumber v d1 = set_pageNumber v d)
          as (d1 & Hd1 & Hb1 & Hsame).
        { simpl. destruct (decide (castObjectId (pageId o) = p0)) as [Heq|Hne].
          - rewrite Heq in Hd |- *. exists (set_pageNumber (placeholder i) d).
            split_and!; [by apply assign1_lookup_eq|done..].
          - exists d. by rewrite assign1_lookup_ne. }
        destruct (Hat k o d1 Hk Hd1 Hb1) as (e & He & Hres & Hdb).
        exists e. split_and!; [done..|].
        by rewrite Hdb, Hsame, Nat.add_succ_r.
Qed.

Lemma clear_of_placeholders bid vs (st : Store) :
  (∀ q d, st !! q = Some d → bookId d = bid →
     ¬ placeholder_range (length vs) (pageNumber d)) →
  clear_of bid (phase1_writes 0 vs) st.
Proof.
  intros Hfree p v q d Hin Hq Hb _ Hv.
  apply phase1_writes_elem in Hin as (k & o & Hk & _ & ->).
  apply (Hfree q d Hq Hb). rewrite Hv. apply placeholder_in_range.
  by apply lookup_lt_Some in Hk.
Qed.

Lemma reorder_events cast body bid items vs w :
  well_formed_request body bid items → validPageOrders items = inr vs →
  ∃ evs1 evs2,
    events (reorder cast body w).1 = events w ++ evs1 ++ evs2
    ∧ (∀ k e, evs1 !! k = Some e → quarantine_event bid 0 vs k e)
    ∧ Forall (λ e, ev_phase e = Commit) evs2
    ∧ (Forall accepted evs1 → length evs1 = length vs)
    ∧ (evs2 ≠ [] → Forall accepted evs1)
    ∧ (clear_of (castObjectId bid) (phase1_writes 0 vs) (db w) →
       length evs1 = length vs
       ∧ ∀ k o d, vs !! k = Some o →
           db w !! castObjectId (pageId o) = Some d → bookId d = castObjectId bid →
           ∃ e, evs1 !! k = Some e ∧ ev_result e = Updated
                ∧ ev_db e !! castObjectId (pageId o)
                  = Some (set_pageNumber (placeholder k) d)).
Proof.
  intros Hwf Hvs.
  destruct (reorder_pipeline cast body bid items w Hwf)
    as [w1 e Hv|w1 vs' w2 e Hv Hp1|w1 vs' w2 w3 e Hv Hp1 Hp2|w1 vs' w2 w3 c Hv Hp1 Hp2];
    apply validate_value in Hv as (Hval & Hdb1 & Hev1 & _); simpl in Hev1, Hdb1;
    rewrite Hvs in Hval; simplify_eq.
  all: destruct (phase1_events bid vs 0 (logged w1 (LogPhase1 (length vs))))
         as (evs1 & Hevs1 & Hq & Hok & Hlen);
       assert (clear_of (castObjectId bid) (phase1_writes 0 vs) (db w) →
               length evs1 = length vs
               ∧ ∀ k o d, vs !! k = Some o →
                   db w !! castObjectId (pageId o) = Some d →
                   bookId d = castObjectId bid →
                   ∃ e, evs1 !! k = Some e ∧ ev_result e = Updated
                        ∧ ev_db e !! castObjectId (pageId o)
                          = Some (set_pageNumber (placeholder k) d)) as Hassigned
         by (intros Hclear;
             destruct (phase1_assigned bid vs 0 (logged w1 (LogPhase1 (length vs))))
               as (evs1' & Hevs1' & Hlen' & Hat); [simpl; by rewrite Hdb1|];
             rewrite Hevs1 in Hevs1'; apply app_inv_head in Hevs1' as <-;
             simpl in Hat; rewrite Hdb1 in Hat; done);
       rewrite Hp1 in Hevs1, Hok, Hlen; simpl in Hevs1, Hok, Hlen.
  - exists evs1, []. rewrite app_nil_r. simpl. rewrite Hevs1, Hev1.
    split_and!; [done..| |done|done]. intros Hacc. by apply Hok in Hacc.
  - destruct (phase2_events cast bid vs 0 (logged w2 LogPhase2))
      as (evs2 & Hevs2 & Hc & _).
    rewrite Hp2 in Hevs2. simpl in Hevs2.
    exists evs1, evs2. simpl. rewrite Hevs2, Hevs1, Hev1, <- app_assoc.
    split_and!; [done..| | | |done].
    + eapply Forall_impl; [exact Hc|]. by intros e' [? _].
    + intros _. by apply Hlen.
    + intros _. by apply Hok.
  - destruct (phase2_events cast bid vs 0 (logged w2 LogPhase2))
      as (evs2 & Hevs2 & Hc & _).
    rewrite Hp2 in Hevs2. simpl in Hevs2.
    exists evs1, evs2. simpl. rewrite Hevs2, Hevs1, Hev1, <- app_assoc.
    split_and!; [done..| | | |done].
    + eapply Forall_impl; [exact Hc|]. by intros e' [? _].
    + intros _. by apply Hlen.
    + intros _. by apply Hok.
Qed.

Lemma placeholder_negative i : (placeholder i < 0)%Z.
Proof. unfold placeholder. lia. Qed.

(** C4, amended: for a request that passes the guards, the write log of
    Phase 1 holds, at index [i], the write that sets the page of the
    [i]-th valid entry to -(i+1).  When no page of the parent is at one of
    -N..-1 beforehand, N being the number of valid entries, every one of
    these writes is made and goes through, and the page of the [i]-th
    valid entry, when it is a page of the parent, is stored at -(i+1) once
    its write has returned.  Placeholders of different indices differ,
    each is negative, and none equals a positive position. *)
Theorem phase1_assigns_placeholders cast body bid items vs w :
  well_formed_request body bid items → validPageOrders items = inr vs →
  (∃ evs1 evs2,
     events (reorder cast body w).1 = events w ++ evs1 ++ evs2
     ∧ Forall (λ e, ev_phase e = Commit) evs2
     ∧ (∀ i e, evs1 !! i = Some e →
          ev_phase e = Quarantine
          ∧ ev_book e = castObjectId bid
          ∧ castObjectId ∘ pageId <$> vs !! i = Some (ev_id e)
          ∧ ev_value e = (- (Z.of_nat i + 1))%Z)
     ∧ ((∀ q d, db w !! q = Some d → bookId d = castObjectId bid →
           ¬ placeholder_range (length vs) (pageNumber d)) →
        length evs1 = length vs
        ∧ ∀ i o d, vs !! i = Some o →
            db w !! castObjectId (pageId o) = Some d →
            bookId d = castObjectId bid →
            ∃ e, evs1 !! i = Some e ∧ ev_result e = Updated
                 ∧ ev_db e !! castObjectId (pageId o)
                   = Some (set_pageNumber (- (Z.of_nat i + 1)) d)))
  ∧ (∀ i j, i ≠ j → placeholder i ≠ placeholder j)
  ∧ (∀ i, (placeholder i < 0)%Z)
  ∧ (∀ i v, (0 < v)%Z → placeholder i ≠ v).
Proof.
  intros Hwf Hvs. split_and!.
  - destruct (reorder_events cast body bid items vs w Hwf Hvs)
      as (evs1 & evs2 & Hev & Hq & Hc & _ & _ & Hassigned).
    exists evs1, evs2. split_and!; [done..| |].
    + intros i e Hi. destruct (Hq i e Hi) as (Hph & Hbk & Hid & Hval & _).
      simpl in Hval. unfold placeholder in Hval. done.
    + intros Hfree. apply Hassigned. by apply clear_of_placeholders.
  - intros i j Hne Heq. by apply placeholder_inj in Heq.
  - apply placeholder_negative.
  - intros i v Hv. pose proof (placeholder_negative i). lia.
Qed.

(** C4 as stated fails: page C was left at -2, and the request lists the
    two other pages.  The write for the entry at index 0 goes through, the
    write of -2 for the entry at index 1 is turned down by the unique
    index, so that page B is not assigned its placeholder; the answer is a
    500. *)
Lemma placeholder_held_by_another_page :
  let items := [entry idA 5; entry idB 6] in
  let out := reorder strict_cast (request idP items) (start book_left_at_2) in
  unique_index book_left_at_2
  ∧ validPageOrders items = inr [valid_of (idA, 5%Z); valid_of (idB, 6%Z)]
  ∧ (λ e, (ev_phase e, ev_id e, ev_value e, ev_result e)) <$> events out.1
    = [(Quarantine, idA, (-1)%Z, Updated); (Quarantine, idB, (-2)%Z, Rejected)]
  ∧ pageNumber <$> db out.1 !! idB = Some 2%Z
  ∧ out.2 = mkResponse 500 (Failure (MongoServerError E11000)).
Proof.
  cbv zeta. split_and!; [apply unique_index_checked|..]; by_evaluation.
Qed.

(** C3, amended: in the write log of a request that passes the guards
    every Phase 1 write comes before every Phase 2 write, and once a
    Phase 2 write has been issued all N Phase 1 writes have been made and
    none was rejected.  A request that swaps the pages at positions 1 and
    2 of a parent none of whose pages is at -1 or -2 is answered with a
    200, none of its writes is rejected, and the two positions end up
    exchanged. *)
Theorem phase1_completes_before_phase2 :
  (∀ cast body bid items vs w,
     well_formed_request body bid items → validPageOrders items = inr vs →
     ∃ evs1 evs2,
       events (reorder cast body w).1 = events w ++ evs1 ++ evs2
       ∧ Forall (λ e, ev_phase e = Quarantine) evs1
       ∧ Forall (λ e, ev_phase e = Commit) evs2
       ∧ (evs2 ≠ [] → length evs1 = length vs ∧ Forall accepted evs1))
  ∧ (∀ cast bid a b w pa pb,
       invalid_id bid = false → invalid_id a = false → invalid_id b = false →
       unique_index (db w) →
       db w !! castObjectId a = Some pa → bookId pa = castObjectId bid →
       pageNumber pa = 1%Z →
       db w !! castObjectId b = Some pb → bookId pb = castObjectId bid →
       pageNumber pb = 2%Z →
       (∀ q d, db w !! q = Some d → bookId d = castObjectId bid →
          pageNumber d ≠ (-1)%Z ∧ pageNumber d ≠ (-2)%Z) →
       let out := reorder cast (request bid [entry a 2; entry b 1]) w in
       status out.2 = 200
       ∧ (∃ evs, events out.1 = events w ++ evs ∧ Forall accepted evs)
       ∧ pageNumber <$> db out.1 !! castObjectId a = Some 2%Z
       ∧ pageNumber <$> db out.1 !! castObjectId b = Some 1%Z).
Proof.
  split.
  - intros cast body bid items vs w Hwf Hvs.
    destruct (reorder_events cast body bid items vs w Hwf Hvs)
      as (evs1 & evs2 & Hev & Hq & Hc & Hlen & Hacc & _).
    exists evs1, evs2. split_and!; [done| |done|].
    + apply Forall_lookup. intros k e Hk. by destruct (Hq k e Hk).
    + intros Hne. split; [apply Hlen|]; by apply Hacc.
  - intros cast bid a b w pa pb Hbid Ha Hb Hu Hpa Hba Hna Hpb Hbb Hnb Hfree.
    cbv zeta.
    change (request bid [entry a 2; entry b 1])
      with (request bid (order_entry <$> [(a, 2%Z); (b, 1%Z)])).
    assert (castObjectId a ≠ castObjectId b) as Hab
      by (intros Heq; rewrite Heq in Hpa; simplify_eq; lia).
    assert (NoDup [castObjectId a; castObjectId b]) as Hnd.
    { apply NoDup_cons. split; [by intros ?%list_elem_of_singleton|].
      apply NoDup_singleton. }
    destruct (reorder_ok cast bid [(a, 2%Z); (b, 1%Z)] w)
      as (w' & evs & -> & Hdb & Hev & Hacc); try done.
    + by repeat constructor.
    + apply NoDup_cons. split; [by intros ?%list_elem_of_singleton|].
      apply NoDup_singleton.
    + intros p v q d Hin Hq Hbq _ Hv.
      apply phase1_writes_elem in Hin as (k & o & Hk & _ & ->).
      destruct (Hfree q d Hq Hbq) as [H1 H2].
      destruct k as [|[|k]]; simplify_eq/=; unfold placeholder in Hv; simpl in Hv;
        congruence.
    + intros p v k o Hin Hk _ ->. apply lookup_lt_Some in Hk. simpl in Hk.
      list_cases Hin; unfold placeholder in *; lia.
    + intros p v q d Hin Hq Hbq Hnl Hv. apply Hnl. simpl.
      list_cases Hin.
      * rewrite (Hu q (castObjectId b) d pb Hq Hpb) by congruence. by right; left.
      * rewrite (Hu q (castObjectId a) d pa Hq Hpa) by congruence. by left.
    + simpl. split_and!; [done|by exists evs|..]; rewrite Hdb.
      * erewrite reordered_listed; [done..| |done|done]. by left.
      * erewrite reordered_listed; [done..| |done|done]. by right; left.
Qed.

(** C3 as stated fails: the request for page C alone, which asks for the
    position that page A holds, is answered 500 and leaves C at -1.  From
    that store the swap of A and B is turned down at its first Phase 1
    write, which sets -1: the answer is a 500 for a duplicate key, and the
    two pages are where they were. *)
Lemma swap_rejected_after_failed_request :
  let left := reorder strict_cast (request idP [entry idC 1]) (start book3) in
  let out := reorder strict_cast (request idP [entry idA 2; entry idB 1])
               (start book_after_failure) in
  status left.2 = 500 ∧ db left.1 = book_after_failure
  ∧ unique_index book_after_failure
  ∧ pageNumber <$> book_after_failure !! idA = Some 1%Z
  ∧ pageNumber <$> book_after_failure !! idB = Some 2%Z
  ∧ out.2 = mkResponse 500 (Failure (MongoServerError E11000))
  ∧ (λ e, (ev_phase e, ev_id e, ev_value e, ev_result e)) <$> events out.1
    = [(Quarantine, idA, (-1)%Z, Rejected)]
  ∧ db out.1 = book_after_failure.
Proof.
  cbv zeta. split_and!; [..|by_evaluation]; try by_evaluation.
  apply unique_index_checked. by_evaluation.
Qed.

(** ** The count of applied entries *)

(** A request is turned down by a guard, or its [bookId] cannot be
    converted, or it passes both guards. *)
Lemma request_cases body :
  invalid_request body ∨ unprintable_request body
  ∨ ∃ bid items, well_formed_request body bid items.
Proof.
  unfold invalid_request, unprintable_request, well_formed_request, lacks_fields.
  destruct (truthy (field "bookId" body)); [|by left; left].
  destruct (field "pageOrder" body) as [| | | | |items|] eqn:Hpo;
    try (by left; right; right; right).
  destruct (id_string (field "bookId" body)) as [s|]; [|by right; left].
  destruct (invalid_id s) eqn:Hs; [left; right; left; by exists s|].
  right; right. by exists s, items.
Qed.

(** An answer of 200 comes from a request that passed both guards. *)
Lemma reorder_200 cast body w :
  status (reorder cast body w).2 = 200 →
  ∃ bid items, well_formed_request body bid items.
Proof.
  intros Hok. destruct (request_cases body) as [Hbad|[Hbad|Hwf]]; [..|done].
  - by rewrite (reorder_guards cast body w Hbad) in Hok.
  - by rewrite (reorder_unprintable cast body w Hbad) in Hok.
Qed.

Lemma resolves_only_positions bid st st' o :
  only_positions_of (castObjectId bid) st st' →
  resolves bid st o ↔ resolves bid st' o.
Proof.
  intros H. unfold resolves. rewrite <- !not_eq_None_Some.
  by rewrite (only_positions_findOne _ st st' _ H).
Qed.

Lemma phase1_only_positions bid i vs w :
  only_positions_of (castObjectId bid) (db w) (db (phase1 bid i vs w).1).
Proof.
  apply (steps_phase1
    (λ w1 w2, only_positions_of (castObjectId bid) (db w1) (db w2)) bid).
  - intros w1. apply only_positions_of_refl.
  - intros w1 w2 w3. apply only_positions_of_trans.
  - intros ph id v w1. apply update_page_only_positions.
Qed.

Lemma update_page_console ph id bid v w :
  console (update_page ph id bid v w).1 = console w.
Proof.
  unfold update_page. by destruct (findOneAndUpdate _ _ v (db w)) as [e|[st r]].
Qed.

Lemma phase1_console bid i vs w : console (phase1 bid i vs w).1 = console w.
Proof.
  apply (steps_phase1 (λ w1 w2, console w2 = console w1) bid); try done.
  - intros w1 w2 w3 H12 H23. congruence.
  - intros ph id v w1. apply update_page_console.
Qed.

Lemma phase2_console cast bid vs c w :
  console (phase2 cast bid vs c w).1 = console w.
Proof.
  apply (steps_phase2 (λ w1 w2, console w2 = console w1) bid); try done.
  - intros w1 w2 w3 H12 H23. congruence.
  - intros ph id v w1. apply update_page_console.
Qed.

Lemma set_final_result cast id bid v w w1 r :
  set_final cast id bid v w = (w1, inr r) →
  r = findOne (castObjectId id) (castObjectId bid) (db w)
  ∧ only_positions_of (castObjectId bid) (db w) (db w1).
Proof.
  intros Heq. split.
  - unfold set_final, update_page, read_page in Heq.
    destruct (cast_pageNumber cast v) as [z| |]; [|by simplify_eq|done].
    destruct (findOneAndUpdate_spec (castObjectId id) (castObjectId bid) z (db w))
      as [d Hd Hb _|d _ _ _|Hn]; simplify_eq/=; [|done].
    symmetry. by apply findOne_Some.
  - pose proof (steps_set_final
      (λ w1 w2, only_positions_of (castObjectId bid) (db w1) (db w2)) bid
      (λ w0, only_positions_of_refl (castObjectId bid) (db w0))
      (λ ph id v w, update_page_only_positions ph id bid v w) cast id v w) as H.
    by rewrite Heq in H.
Qed.

Lemma phase2_count cast bid vs c w w' c' :
  phase2 cast bid vs c w = (w', inr c') →
  c' = c + length (filter (resolves bid (db w)) vs).
Proof.
  revert c w. induction vs as [|o vs IH]; intros c w Heq; simpl in Heq.
  - unfold ret in Heq. simplify_eq. simpl. lia.
  - unfold bind in Heq.
    destruct (set_final cast (pageId o) bid (newPageNumber o) w)
      as [w1 [e|r]] eqn:Hset; [done|].
    apply set_final_result in Hset as [-> Hpos].
    apply IH in Heq as ->.
    rewrite (list_filter_iff (resolves bid (db w1)) (resolves bid (db w)))
      by (intros o'; symmetry; by apply resolves_only_positions).
    clear IH. rewrite filter_cons.
    destruct (decide (resolves bid (db w) o)) as [[d Hr]|Hr].
    + rewrite Hr. simpl. lia.
    + destruct (findOne (castObjectId (pageId o)) (castObjectId bid) (db w))
        as [d|] eqn:Hf; [|lia].
      destruct Hr. unfold resolves. by rewrite Hf.
Qed.

(** C6, amended: a request that completes successfully has counted the
    entries it applied, which are the valid entries whose identifier
    names a page of the parent, and has written that count to the server
    log; the response is the sorted page list of the parent and nothing
    else. *)
Theorem reorder_logs_updatedCount cast body w :
  status (reorder cast body w).2 = 200 →
  ∃ bid items vs,
    id_string (field "bookId" body) = Some bid
    ∧ field "pageOrder" body = JArr items ∧ validPageOrders items = inr vs ∧
    let out := reorder cast body w in
    let updatedPages := find_sorted (castObjectId bid) (db out.1) in
    out.2 = mkResponse 200 (Pages updatedPages)
    ∧ console out.1 =
        console w
        ++ [LogReceived (field "bookId" body) (JArr items);
            LogReordering (length items) bid]
        ++ warnings items
        ++ [LogPhase1 (length vs); LogPhase2;
            LogUpdated (length (filter (resolves bid (db w)) vs));
            LogSuccess (length updatedPages)].
Proof.
  intros Hok. destruct (reorder_200 cast body w Hok) as (bid & items & Hwf).
  exists bid, items.
  destruct (reorder_pipeline cast body bid items w Hwf)
    as [w1 e Hv|w1 vs w2 e Hv Hp1|w1 vs w2 w3 e Hv Hp1 Hp2|w1 vs w2 w3 c Hv Hp1 Hp2];
    try done.
  clear Hok. exists vs. destruct Hwf as (_ & Hs & _ & Hpo).
  apply validate_value in Hv as (Hval & Hdb1 & _ & Hcon1).
  simpl in Hdb1, Hcon1. split_and!; [done..|].
  pose proof (phase1_console bid 0 vs (logged w1 (LogPhase1 (length vs)))) as Hc1.
  pose proof (phase1_only_positions bid 0 vs (logged w1 (LogPhase1 (length vs))))
    as Hpos.
  rewrite Hp1 in Hc1, Hpos. simpl in Hc1, Hpos. rewrite Hdb1 in Hpos.
  pose proof (phase2_console cast bid vs 0 (logged w2 LogPhase2)) as Hc2.
  rewrite Hp2 in Hc2. simpl in Hc2.
  apply phase2_count in Hp2 as ->. simpl.
  rewrite Hc2, Hc1, Hcon1. rewrite <- !app_assoc. simpl.
  rewrite (list_filter_iff (resolves bid (db w2)) (resolves bid (db w)))
    by (intros o'; symmetry; by apply resolves_only_positions).
  done.
Qed.

(** C6 as stated fails: two requests of two entries each, one applying
    both and one applying a single entry, get the very same response; the
    count is in the server log only. *)
Lemma response_omits_updatedCount :
  let out1 := reorder strict_cast (request idP [entry idA 1; entry idA 1]) (start book1) in
  let out2 := reorder strict_cast (request idP [entry idA 1; entry idX 2]) (start book1) in
  status out1.2 = 200 ∧ out1.2 = out2.2
  ∧ out1.2 = mkResponse 200 (Pages [(idA, page idP 1 "a")])
  ∧ console out1.1 !! 4 = Some (LogUpdated 2)
  ∧ console out2.1 !! 4 = Some (LogUpdated 1).
Proof. cbv zeta. split_and!; by_evaluation. Qed.

Lemma reorder_logs_updatedCount_witness :
  let body := request idP [entry idA_upper 1; entry idX 2; bad_entry] in
  ∃ bid items vs,
    id_string (field "bookId" body) = Some bid
    ∧ field "pageOrder" body = JArr items ∧ validPageOrders items = inr vs ∧
    let out := reorder strict_cast body (start book1) in
    let updatedPages := find_sorted (castObjectId bid) (db out.1) in
    out.2 = mkResponse 200 (Pages updatedPages)
    ∧ console out.1 =
        console (start book1)
        ++ [LogReceived (field "bookId" body) (JArr items);
            LogReordering (length items) bid]
        ++ warnings items
        ++ [LogPhase1 (length vs); LogPhase2;
            LogUpdated (length (filter (resolves bid (db (start book1))) vs));
            LogSuccess (length updatedPages)].
Proof.
  apply (reorder_logs_updatedCount strict_cast
           (request idP [entry idA_upper 1; entry idX 2; bad_entry]) (start book1)).
  by_evaluation.
Defined.

(** The log of the request above: one warning, two valid entries, of
    which the one that names page A in upper case was applied. *)
Example updatedCount_counts_the_upper_case_entry :
  console (reorder strict_cast
             (request idP [entry idA_upper 1; entry idX 2; bad_entry]) (start book1)).1
  = [LogReceived (JStr idP) (JArr [entry idA_upper 1; entry idX 2; bad_entry]);
     LogReordering 3 idP; WarnInvalidPageId "page-7";
     LogPhase1 2; LogPhase2; LogUpdated 1; LogSuccess 1].
Proof. by_evaluation. Qed.

Lemma phase1_assigns_placeholders_witness :
  let body := request idP_upper [entry idA_upper 2; entry idB 1] in
  let vs := [valid_of (idA_upper, 2%Z); valid_of (idB, 1%Z)] in
  (∃ evs1 evs2,
     events (reorder strict_cast body (start book3)).1
       = events (start book3) ++ evs1 ++ evs2
     ∧ Forall (λ e, ev_phase e = Commit) evs2
     ∧ (∀ i e, evs1 !! i = Some e →
          ev_phase e = Quarantine
          ∧ ev_book e = castObjectId idP_upper
          ∧ castObjectId ∘ pageId <$> vs !! i = Some (ev_id e)
          ∧ ev_value e = (- (Z.of_nat i + 1))%Z)
     ∧ ((∀ q d, db (start book3) !! q = Some d → bookId d = castObjectId idP_upper →
           ¬ placeholder_range (length vs) (pageNumber d)) →
        length evs1 = length vs
        ∧ ∀ i o d, vs !! i = Some o →
            db (start book3) !! castObjectId (pageId o) = Some d →
            bookId d = castObjectId idP_upper →
            ∃ e, evs1 !! i = Some e ∧ ev_result e = Updated
                 ∧ ev_db e !! castObjectId (pageId o)
                   = Some (set_pageNumber (- (Z.of_nat i + 1)) d)))
  ∧ (∀ i j, i ≠ j → placeholder i ≠ placeholder j)
  ∧ (∀ i, (placeholder i < 0)%Z)
  ∧ (∀ i v, (0 < v)%Z → placeholder i ≠ v).
Proof.
  apply (phase1_assigns_placeholders strict_cast
           (request idP_upper [entry idA_upper 2; entry idB 1]) idP_upper
           [entry idA_upper 2; entry idB 1]
           [valid_of (idA_upper, 2%Z); valid_of (idB, 1%Z)] (start book3)).
  - split_and!; by_evaluation.
  - by_evaluation.
Defined.

(** The store after each of the two Phase 1 writes of the request above:
    page A at -1, then page B at -2 as well. *)
Example phase1_stores_the_placeholders :
  (λ e, (ev_result e, pageNumber <$> ev_db e !! idA, pageNumber <$> ev_db e !! idB))
    <$> take 2 (events (reorder strict_cast
                  (request idP_upper [entry idA_upper 2; entry idB 1]) (start book3)).1)
  = [(Updated, Some (-1)%Z, Some 2%Z); (Updated, Some (-1)%Z, Some (-2)%Z)].
Proof. by_evaluation. Qed.

Lemma phase1_completes_before_phase2_witness :
  (∃ evs1 evs2,
     events (reorder strict_cast (request idP [entry idA 2; entry idB 1])
               (start book3)).1 = events (start book3) ++ evs1 ++ evs2
     ∧ Forall (λ e, ev_phase e = Quarantine) evs1
     ∧ Forall (λ e, ev_phase e = Commit) evs2
     ∧ (evs2 ≠ [] →
          length evs1 = length [valid_of (idA, 2%Z); valid_of (idB, 1%Z)]
          ∧ Forall accepted evs1))
  ∧ (let out := reorder strict_cast (request idP [entry idA 2; entry idB 1])
                  (start book3) in
     status out.2 = 200
     ∧ (∃ evs, events out.1 = events (start book3) ++ evs ∧ Forall accepted evs)
     ∧ pageNumber <$> db out.1 !! castObjectId idA = Some 2%Z
     ∧ pageNumber <$> db out.1 !! castObjectId idB = Some 1%Z).
Proof.
  split.
  - apply (proj1 phase1_completes_before_phase2 strict_cast
             (request idP [entry idA 2; entry idB 1]) idP
             [entry idA 2; entry idB 1]
             [valid_of (idA, 2%Z); valid_of (idB, 1%Z)] (start book3)).
    + split_and!; by_evaluation.
    + by_evaluation.
  - apply (proj2 phase1_completes_before_phase2 strict_cast idP idA idB
             (start book3) (page idP 1 "a") (page idP 2 "b")).
    1-3: by_evaluation.
    + apply unique_index_checked. by_evaluation.
    + by_evaluation.
    + reflexivity.
    + reflexivity.
    + by_evaluation.
    + reflexivity.
    + reflexivity.
    + apply (map_Forall_checked
        (λ _ d, bookId d = castObjectId idP →
           pageNumber d ≠ (-1)%Z ∧ pageNumber d ≠ (-2)%Z)
        book3).
      by_evaluation.
Defined.

(** ** Computations that depend on the store alone *)

Lemma tidy_ret {A} (a : A) : tidy (ret a).
Proof.
  intros st. exists st, [], [], (inr a). intros w <-.
  unfold ret. by rewrite !app_nil_r, world_eta.
Qed.

Lemma tidy_throw {A} e : tidy (@throw A e).
Proof.
  intros st. exists st, [], [], (inl e). intros w <-.
  unfold throw. by rewrite !app_nil_r, world_eta.
Qed.

Lemma tidy_bind {A B} (m : M A) (k : A → M B) :
  tidy m → (∀ a, tidy (k a)) → tidy (bind m k).
Proof.
  intros Hm Hk st. destruct (Hm st) as (st1 & evs1 & lines1 & [e|a] & H1).
  - exists st1, evs1, lines1, (inl e). intros w Hw. unfold bind. by rewrite (H1 w Hw).
  - destruct (Hk a st1) as (st2 & evs2 & lines2 & r & H2).
    exists st2, (evs1 ++ evs2), (lines1 ++ lines2), r. intros w Hw.
    unfold bind. rewrite (H1 w Hw), H2 by done. simpl. by rewrite !app_assoc.
Qed.

Lemma tidy_console_log l : tidy (console_log l).
Proof.
  intros st. exists st, [], [l], (inr tt). intros w <-.
  unfold console_log. by rewrite app_nil_r.
Qed.

Lemma tidy_update_page ph id bid v : tidy (update_page ph id bid v).
Proof.
  intros st. unfold update_page.
  destruct (findOneAndUpdate (castObjectId id) (castObjectId bid) v st)
    as [e|[st' r]] eqn:Heq.
  - exists st, [mkEvent ph (castObjectId id) (castObjectId bid) v Rejected st], [],
      (inl (MongoServerError e)).
    intros w ->. by rewrite Heq, app_nil_r.
  - exists st', [mkEvent ph (castObjectId id) (castObjectId bid) v (result_of r) st'],
      [], (inr r).
    intros w ->. by rewrite Heq, app_nil_r.
Qed.

Lemma tidy_read_page id bid : tidy (read_page id bid).
Proof.
  intros st.
  exists st, [], [], (inr (findOne (castObjectId id) (castObjectId bid) st)).
  intros w <-. unfold read_page. by rewrite !app_nil_r, world_eta.
Qed.

Lemma tidy_read_pages bid : tidy (read_pages bid).
Proof.
  intros st. exists st, [], [], (inr (find_sorted (castObjectId bid) st)).
  intros w <-. unfold read_pages. by rewrite !app_nil_r, world_eta.
Qed.

Lemma tidy_phase1 bid i vs : tidy (phase1 bid i vs).
Proof.
  revert i. induction vs as [|o vs IH]; intros i; simpl.
  - apply tidy_ret.
  - apply tidy_bind; [apply tidy_update_page|]. intros _. apply IH.
Qed.

Lemma tidy_set_final cast id bid v : tidy (set_final cast id bid v).
Proof.
  unfold set_final. destruct (cast_pageNumber cast v).
  - apply tidy_update_page.
  - apply tidy_read_page.
  - apply tidy_throw.
Qed.

Lemma tidy_phase2 cast bid vs c : tidy (phase2 cast bid vs c).
Proof.
  revert c. induction vs as [|o vs IH]; intros c; simpl.
  - apply tidy_ret.
  - apply tidy_bind; [apply tidy_set_final|]. intros r. apply IH.
Qed.

Lemma tidy_after_validation cast bid vs : tidy (after_validation cast bid vs).
Proof.
  unfold after_validation.
  repeat (apply tidy_bind; [|intros ?]);
    auto using tidy_console_log, tidy_phase1, tidy_phase2, tidy_read_pages, tidy_ret.
Qed.

(** Two runs of a tidy computation from worlds with the same store. *)
Lemma tidy_same_store {A} (m : M A) w w' :
  tidy m → db w = db w' →
  db (m w).1 = db (m w').1 ∧ (m w).2 = (m w').2
  ∧ (events w = events w' → events (m w).1 = events (m w').1).
Proof.
  intros Hm Hdb. destruct (Hm (db w)) as (st' & evs & lines & r & H).
  rewrite (H w eq_refl), (H w' (eq_sym Hdb)). simpl.
  split_and!; [done..|]. by intros ->.
Qed.


Lemma reorder_valid cast body bid items w :
  well_formed_request body bid items →
  reorder cast body w =
    settle
      match validPageOrders items with
      | inl e =>
          (mkWorld (db w) (events w)
             (((console w ++ [LogReceived (field "bookId" body) (JArr items)])
                 ++ [LogReordering (length items) bid])
                ++ warnings items), inl e)
      | inr vs =>
          after_validation cast bid vs
            (mkWorld (db w) (events w)
               (((console w ++ [LogReceived (field "bookId" body) (JArr items)])
                   ++ [LogReordering (length items) bid])
                  ++ warnings items))
      end.
Proof.
  intros Hwf. unfold reorder.
  rewrite (reorder_try_valid cast body bid items) by done.
  unfold bind at 1. rewrite validate_run. simpl.
  by destruct (validPageOrders items).
Qed.

(** ** Entries that are skipped or match nothing *)






Lemma settle_same out out' :
  db out.1 = db out'.1 → events out.1 = events out'.1 → out.2 = out'.2 →
  (settle out).2 = (settle out').2 ∧ db (settle out).1 = db (settle out').1
  ∧ events (settle out).1 = events (settle out').1.
Proof.
  destruct out as [w [e|res]], out' as [w' [e'|res']]; simpl;
    intros ? ? ?; by simplify_eq.
Qed.








Example stranger_leaves_the_rest_applied :
  (reorder strict_cast (request idP (order_entry <$> orders_with_stranger))
     (start book3)).2
  = mkResponse 200
      (Pages [(idB, page idP 1 "b"); (idC, page idP 2 "c"); (idA, page idP 3 "a")]).
Proof. by_evaluation. Qed.

(** * Further properties of the page routes *)

(** ** Requests without a valid entry, and null entries *)

Lemma validPageOrders_all_malformed items :
  Forall (λ item, ∃ s, malformed_entry item s) items →
  validPageOrders items = inr [].
Proof.
  induction items as [|item items IH]; intros Hall; [done|].
  apply Forall_cons in Hall as [(s & raw & Hraw & Hs & Hinv) Hall].
  unfold validPageOrders. rewrite validate_cons, Hraw, Hs, Hinv, validate_run.
  simpl. by rewrite (IH Hall).
Qed.

(** X1: a request that passes the guards but carries no usable entry (an
    empty [pageOrder], or entries whose [pageId] has a string that is no
    identifier) issues no write, leaves the store as it was and is
    answered 200 with the sorted pages of the parent. *)
Theorem reorder_without_valid_entry cast body bid items w :
  well_formed_request body bid items →
  Forall (λ item, ∃ s, malformed_entry item s) items →
  let out := reorder cast body w in
  db out.1 = db w ∧ events out.1 = events w
  ∧ out.2 = mkResponse 200 (Pages (find_sorted (castObjectId bid) (db w))).
Proof.
  intros Hwf Hall. cbv zeta. rewrite (reorder_valid cast body bid items w Hwf).
  by rewrite (validPageOrders_all_malformed items Hall).
Qed.

Lemma reorder_without_valid_entry_witness :
  let body := request idP_upper [bad_entry; JStr "x"; JObj [("pageId", JNum 7)]] in
  let out := reorder strict_cast body (start book3) in
  db out.1 = db (start book3) ∧ events out.1 = events (start book3)
  ∧ out.2 = mkResponse 200
              (Pages (find_sorted (castObjectId idP_upper) (db (start book3)))).
Proof.
  apply (reorder_without_valid_entry strict_cast
           (request idP_upper [bad_entry; JStr "x"; JObj [("pageId", JNum 7)]])
           idP_upper [bad_entry; JStr "x"; JObj [("pageId", JNum 7)]] (start book3)).
  - split_and!; by_evaluation.
  - repeat constructor.
    + exists "page-7", (JStr "page-7"). split_and!; by_evaluation.
    + exists "undefined", JUndefined. split_and!; by_evaluation.
    + exists "7", (JNum 7). split_and!; by_evaluation.
Defined.




(** ** The response of a reorder and the listing *)

(** X3: whenever a reorder is answered 200, its response is what the
    listing route then returns for the same parent. *)
Theorem reorder_response_is_listing valid other cast body w :
  status (reorder cast body w).2 = 200 →
  ∃ bid, id_string (field "bookId" body) = Some bid
    ∧ (reorder cast body w).2
      = get_book_pages valid other bid (db (reorder cast body w).1).
Proof.
  intros Hok. destruct (reorder_200 cast body w Hok) as (bid & items & Hwf).
  exists bid. split; [by destruct Hwf as (_ & ? & _)|].
  assert (invalid_id bid = false) as Hid by by destruct Hwf as (_ & _ & ? & _).
  unfold get_book_pages, ObjectId_isValid.
  rewrite (invalid_id_hex _ Hid), cast_param_hex by done. simpl.
  revert Hok. by destruct (reorder_pipeline cast body bid items w Hwf).
Qed.

Lemma reorder_response_is_listing_witness :
  let body := request idP_upper [entry idA 3; entry idB 1; entry idC 2] in
  ∃ bid, id_string (field "bookId" body) = Some bid
    ∧ (reorder strict_cast body (start book3)).2
      = get_book_pages hex_only_valid hex_only bid
          (db (reorder strict_cast body (start book3)).1).
Proof.
  apply (reorder_response_is_listing hex_only_valid hex_only strict_cast
           (request idP_upper [entry idA 3; entry idB 1; entry idC 2]) (start book3));
    by_evaluation.
Defined.

Lemma StronglySorted_strengthen {A} (R R' : relation A) (l : list A) :
  StronglySorted R l → NoDup l →
  (∀ x y, x ∈ l → y ∈ l → R x y → x ≠ y → R' x y) →
  StronglySorted R' l.
Proof.
  induction 1 as [|x l Hs IH Hx]; intros Hnd Hstrict; constructor.
  - apply IH; [by apply NoDup_cons in Hnd as [_ ?]|].
    intros y z Hy Hz. apply Hstrict; by right.
  - apply NoDup_cons in Hnd as [Hnot _]. rewrite Forall_forall in Hx |- *.
    intros y Hy. apply Hstrict; [by left|by right|by apply Hx|].
    intros ->. done.
Qed.

(** X4: over a store with unique positions the listing of a parent is
    strictly ascending: no two of the listed pages share a position, so
    the positions alone fix the order of the answer. *)
Theorem find_sorted_strictly_ascending bid st :
  unique_index st → StronglySorted by_position_strictly (find_sorted bid st).
Proof.
  intros Hu.
  apply (StronglySorted_strengthen by_pageNumber).
  - apply StronglySorted_merge_sort; apply _.
  - apply find_sorted_NoDup.
  - intros [i p] [j q] Hi Hj Hle Hne.
    apply find_sorted_elem in Hi as [Hi Hbi], Hj as [Hj Hbj].
    unfold by_position_strictly, by_pageNumber in *. simpl in *.
    destruct (decide (pageNumber p = pageNumber q)) as [Heq|]; [|lia].
    destruct Hne. assert (i = j) as -> by (eapply Hu; eauto; congruence).
    congruence.
Qed.

Lemma find_sorted_strictly_ascending_witness :
  StronglySorted by_position_strictly (find_sorted idP book3).
Proof.
  apply (find_sorted_strictly_ascending idP book3).
  apply unique_index_checked. by_evaluation.
Defined.

(** ** Identifiers given as documents *)





(** ** Repeating a request *)

Lemma reordered_positions_free bid orders (st : Store) :
  distinct_existing bid orders st →
  (∀ q d, st !! q = Some d → bookId d = castObjectId bid →
     ¬ placeholder_range (length orders) (pageNumber d)) →
  (∀ id n, (id, n) ∈ orders → ¬ placeholder_range (length orders) n) →
  ∀ q d, reordered bid orders st !! q = Some d → bookId d = castObjectId bid →
    ¬ placeholder_range (length orders) (pageNumber d).
Proof.
  intros (_ & Hnd1 & _ & Hex) Hfree Htargets q d Hq Hb.
  destruct (decide (q ∈ castObjectId <$> orders.*1)) as [Hl|Hl].
  - apply list_elem_of_fmap in Hl as (q0 & -> & Hl).
    apply list_elem_of_fmap in Hl as ([q' n] & -> & Hin). simpl in *.
    destruct (Hex q' n Hin) as (_ & d0 & Hd0 & Hb0).
    rewrite (reordered_listed bid orders st q' n d0) in Hq by done.
    simplify_eq/=. by eapply Htargets.
  - rewrite reordered_other in Hq by by left. by eapply Hfree.
Qed.

Lemma reordered_twice bid orders (st : Store) :
  distinct_existing bid orders st →
  reordered bid orders (reordered bid orders st) = reordered bid orders st.
Proof.
  intros (_ & Hnd1 & _ & Hex). apply map_eq. intros q.
  destruct (decide (q ∈ castObjectId <$> orders.*1)) as [Hl|Hl].
  - apply list_elem_of_fmap in Hl as (q0 & -> & Hl).
    apply list_elem_of_fmap in Hl as ([q' n] & -> & Hin). simpl in *.
    destruct (Hex q' n Hin) as (_ & d0 & Hd0 & Hb0).
    rewrite (reordered_listed bid orders _ q' n (set_pageNumber n d0)); try done.
    + by rewrite (reordered_listed bid orders st q' n d0).
    + by apply reordered_listed.
  - by rewrite !reordered_other by by left.
Qed.

(** X6: a request that was applied can be sent again.  Under the
    conditions of the amended C1, running the same request on the world it
    left gives the same answer and the same store. *)
Theorem reorder_twice cast bid orders w :
  distinct_existing bid orders (db w) →
  (∀ q d, db w !! q = Some d → bookId d = castObjectId bid →
     ¬ placeholder_range (length orders) (pageNumber d)) →
  (∀ id n, (id, n) ∈ orders → ¬ placeholder_range (length orders) n) →
  (∀ id n q d, (id, n) ∈ orders → db w !! q = Some d →
     bookId d = castObjectId bid →
     q ∉ castObjectId <$> orders.*1 → pageNumber d ≠ n) →
  let out1 := reorder cast (request bid (order_entry <$> orders)) w in
  let out2 := reorder cast (request bid (order_entry <$> orders)) out1.1 in
  status out1.2 = 200 ∧ out2.2 = out1.2 ∧ db out2.1 = db out1.1.
Proof.
  intros Hde Hfree Htargets Hunlisted. cbv zeta.
  pose proof Hde as (Hbid & Hnd1 & Hnd2 & Hex).
  assert (Forall (λ o : string * Z, invalid_id o.1 = false) orders) as Hids.
  { apply Forall_forall. intros [id n] Hin. by apply (Hex id n). }
  assert (∀ p v k o, (p, v) ∈ orders → orders !! k = Some o →
            castObjectId o.1 ≠ castObjectId p → v ≠ placeholder k) as Hph.
  { intros p v k o Hin Hk _ ->. apply (Htargets p _ Hin).
    apply placeholder_in_range. by apply lookup_lt_Some in Hk. }
  destruct (reorder_ok cast bid orders w) as (w1 & evs1 & -> & Hdb1 & _); try done.
  { by apply clear_of_phase1_range. }
  simpl.
  destruct (reorder_ok cast bid orders w1) as (w2 & evs2 & -> & Hdb2 & _); try done.
  { apply clear_of_phase1_range. rewrite Hdb1.
    by apply reordered_positions_free. }
  { intros p v q d Hin Hq Hb Hnl. rewrite Hdb1 in Hq.
    rewrite reordered_other in Hq by by left. by eapply Hunlisted. }
  simpl. rewrite Hdb2, Hdb1, reordered_twice by done. done.
Qed.

Lemma reorder_twice_witness :
  let orders := [(idA_upper, 3%Z); (idB, 1%Z); (idC, 2%Z)] in
  let out1 := reorder strict_cast (request idP (order_entry <$> orders)) (start book3) in
  let out2 := reorder strict_cast (request idP (order_entry <$> orders)) out1.1 in
  status out1.2 = 200 ∧ out2.2 = out1.2 ∧ db out2.1 = db out1.1.
Proof.
  apply (reorder_twice strict_cast idP
           [(idA_upper, 3%Z); (idB, 1%Z); (idC, 2%Z)] (start book3)).
  - apply book3_distinct_existing; [by_evaluation..|].
    repeat constructor; set_solver.
  - apply (map_Forall_checked
      (λ _ d, bookId d = castObjectId idP → ¬ placeholder_range 3 (pageNumber d))
      book3).
    by_evaluation.
  - intros id n Hin. list_cases Hin; unfold placeholder_range; simpl; lia.
  - intros id n q d Hin Hq _ Hnl. exfalso. apply Hnl.
    destruct (book3_keys q d Hq) as [-> | [-> | ->]]; vm_compute;
      repeat constructor.
Defined.

(** ** What a rejected write leaves behind *)






(** ** Deleting a page *)

Lemma delete_unique_index (st : Store) id :
  unique_index st → unique_index (delete id st).
Proof.
  intros Hu i j p q Hi Hj. apply lookup_delete_Some in Hi as [_ Hi], Hj as [_ Hj].
  by apply (Hu i j p q).
Qed.

(** X8: deleting answers 500 exactly when the identifier cannot be cast,
    404 exactly when it is cast to an identifier that no page has, and 200
    exactly when it is cast to the identifier of a stored page.  Afterwards
    no page has that identifier and every other page is as it was; any
    answer but 200 leaves the store unchanged, and positions stay
    unique. *)
Theorem delete_page_removes_one other id st :
  let out := delete_page other id st in
  (status out.2 = 500 ↔ cast_param other id = None)
  ∧ (status out.2 = 404 ↔ ∃ oid, cast_param other id = Some oid ∧ st !! oid = None)
  ∧ (status out.2 = 200 ↔
       ∃ oid, cast_param other id = Some oid ∧ is_Some (st !! oid))
  ∧ (∀ oid, cast_param other id = Some oid →
       out.1 !! oid = None ∧ ∀ q, q ≠ oid → out.1 !! q = st !! q)
  ∧ (status out.2 ≠ 200 → out.1 = st)
  ∧ (unique_index st → unique_index out.1).
Proof.
  unfold delete_page. destruct (cast_param other id) as [oid|]; simpl.
  - destruct (st !! oid) as [d|] eqn:Hd; simpl.
    + split_and!; try done.
      * split; [done|]. intros (? & [= <-] & ?). congruence.
      * split; [eauto|done].
      * intros ? [= <-]. split; [apply lookup_delete_eq|].
        intros q Hq. by apply lookup_delete_ne.
      * apply delete_unique_index.
    + split_and!; try done.
      * split; [eauto|done].
      * split; [done|]. intros (? & [= <-] & [? ?]). congruence.
      * by intros ? [= <-].
  - split_and!; try done.
    + split; [done|]. by intros (? & ? & _).
    + split; [done|]. by intros (? & ? & _).
Qed.

Lemma delete_page_removes_one_witness :
  let out := delete_page hex_only idB_upper book3 in
  (status out.2 = 500 ↔ cast_param hex_only idB_upper = None)
  ∧ (status out.2 = 404 ↔
       ∃ oid, cast_param hex_only idB_upper = Some oid ∧ book3 !! oid = None)
  ∧ (status out.2 = 200 ↔
       ∃ oid, cast_param hex_only idB_upper = Some oid ∧ is_Some (book3 !! oid))
  ∧ (∀ oid, cast_param hex_only idB_upper = Some oid →
       out.1 !! oid = None ∧ ∀ q, q ≠ oid → out.1 !! q = book3 !! q)
  ∧ (status out.2 ≠ 200 → out.1 = book3)
  ∧ (unique_index book3 → unique_index out.1).
Proof. apply (delete_page_removes_one hex_only idB_upper book3). Defined.

Example delete_page_samples :
  delete_page hex_only idB_upper book3
  = (delete idB book3, mkResponse 200 (Message "Page deleted"))
  ∧ delete_page hex_only idX book3 = (book3, mkResponse 404 (Message "Page not found"))
  ∧ delete_page hex_only "page-7" book3 = (book3, mkResponse 500 (Failure CastError)).
Proof. split_and!; by_evaluation. Qed.

(** X9: deleting the same page a second time answers 404 and changes
    nothing more. *)
Theorem delete_page_twice other id oid st :
  cast_param other id = Some oid → is_Some (st !! oid) →
  let once := delete_page other id st in
  let twice := delete_page other id once.1 in
  status once.2 = 200 ∧ twice = (once.1, mkResponse 404 (Message "Page not found")).
Proof.
  intros Hc [d Hd]. cbv zeta. unfold delete_page. rewrite Hc, Hd. simpl.
  by rewrite lookup_delete_eq.
Qed.

Lemma delete_page_twice_witness :
  let once := delete_page hex_only idB_upper book3 in
  let twice := delete_page hex_only idB_upper once.1 in
  status once.2 = 200 ∧ twice = (once.1, mkResponse 404 (Message "Page not found")).
Proof.
  apply (delete_page_twice hex_only idB_upper idB book3); [by_evaluation|].
  by exists (page idP 2 "b").
Defined.

Lemma StronglySorted_filter {A} (R : relation A) (P : A → Prop)
    `{∀ x, Decision (P x)} (l : list A) :
  StronglySorted R l → StronglySorted R (filter P l).
Proof.
  induction 1 as [|x l Hs IH Hx]; [constructor|].
  rewrite filter_cons. destruct (decide (P x)); [|done].
  constructor; [done|]. rewrite Forall_forall in Hx |- *.
  intros y [_ Hy]%list_elem_of_filter. by apply Hx.
Qed.

(** Over unique positions there is one sorted list of the pages of a
    parent. *)
Lemma find_sorted_unique bid (st : Store) (l : list (ObjectId * Page)) :
  unique_index st → StronglySorted by_pageNumber l → NoDup l →
  (∀ e, e ∈ l ↔ e ∈ find_sorted bid st) →
  l = find_sorted bid st.
Proof.
  intros Hu Hs Hnd Hel.
  apply (StronglySorted_unique_strong by_pageNumber); [|done| |].
  - intros [i p] [j q] Hi Hj Hle Hge.
    apply (proj1 (Hel _)) in Hi.
    apply find_sorted_elem in Hi as [Hi Hbi]. apply find_sorted_elem in Hj as [Hj Hbj].
    unfold by_pageNumber in *. simpl in *.
    assert (i = j) as -> by (eapply Hu; eauto; [congruence|lia]).
    congruence.
  - apply StronglySorted_merge_sort; apply _.
  - apply NoDup_Permutation; [done|apply find_sorted_NoDup|done].
Qed.

(** X10: deleting does not renumber.  Over unique positions, the listing
    of any parent after a delete is the listing before it without the
    page that the identifier is cast to, every other page at its old
    position and place; when the identifier cannot be cast the listing is
    as it was. *)
Theorem delete_page_keeps_positions other id bid st :
  unique_index st →
  find_sorted bid (delete_page other id st).1
  = match cast_param other id with
    | Some oid => filter (λ e : ObjectId * Page, e.1 ≠ oid) (find_sorted bid st)
    | None => find_sorted bid st
    end.
Proof.
  intros Hu. unfold delete_page.
  destruct (cast_param other id) as [oid|]; [|done].
  assert ((match st !! oid with
           | Some _ => (delete oid st, mkResponse 200 (Message "Page deleted"))
           | None => (st, mkResponse 404 (Message "Page not found"))
           end).1 = delete oid st) as ->.
  { destruct (st !! oid) eqn:Hd; [done|]. simpl. symmetry. by apply delete_id. }
  symmetry. apply find_sorted_unique.
  - by apply delete_unique_index.
  - apply StronglySorted_filter, StronglySorted_merge_sort; apply _.
  - apply NoDup_filter, find_sorted_NoDup.
  - intros [q d]. rewrite list_elem_of_filter, !find_sorted_elem, lookup_delete_Some.
    simpl. split.
    + intros (Hne & Hq & Hb). done.
    + intros ((Hne & Hq) & Hb). done.
Qed.

Lemma delete_page_keeps_positions_witness :
  find_sorted idP (delete_page hex_only idB_upper book3).1
  = match cast_param hex_only idB_upper with
    | Some oid => filter (λ e : ObjectId * Page, e.1 ≠ oid) (find_sorted idP book3)
    | None => find_sorted idP book3
    end.
Proof.
  apply (delete_page_keeps_positions hex_only idB_upper idP book3).
  apply unique_index_checked. by_evaluation.
Defined.

Example delete_leaves_a_gap :
  find_sorted idP (delete_page hex_only idB_upper book3).1
  = [(idA, page idP 1 "a"); (idC, page idP 3 "c")].
Proof. by_evaluation. Qed.

(** ** Creating a page *)

Lemma js_or_idem a d : js_or (js_or a d) d = js_or a d.
Proof. unfold js_or. destruct (truthy a) eqn:Ha; [by rewrite Ha|]. by destruct (truthy d). Qed.

Lemma not_false_idem v : not_false (not_false v) = not_false v.
Proof. by destruct v as [| |[]| | | |]. Qed.

Lemma js_or_truthy a d : truthy d = true → truthy (js_or a d) = true.
Proof. intros Hd. unfold js_or. by destruct (truthy a) eqn:Ha. Qed.

Lemma js_or_falsy a d : truthy (js_or a d) = false → js_or a d = d.
Proof. unfold js_or. destruct (truthy a) eqn:Ha; [congruence|done]. Qed.

(** X11: the fields that the create route hands to the model are in
    normal form: building them again from themselves changes nothing.  In
    them the scroll width, the web view, both sequences, the sequence
    duration and the sequence animation are never falsy (a posted width
    of 0 becomes 100); the two scroll offsets and the four flags that
    default to [false] are falsy only as their default, 0 or [false];
    and [coloringEndModalOnly] is a boolean that is false only when the
    body gives exactly [false]. *)
Theorem create_fields_normal body :
  create_fields (create_fields body) = create_fields body
  ∧ Forall (λ k, truthy (field k (create_fields body)) = true)
      ["scrollWidth"; "webView"; "videoSequence"; "imageSequence";
       "imageSequenceDuration"; "imageSequenceAnimation"]
  ∧ Forall (λ kd : string * JsVal,
              truthy (field kd.1 (create_fields body)) = false →
              field kd.1 (create_fields body) = kd.2)
      [("scrollOffsetY", JNum 0); ("scrollOffsetX", JNum 0);
       ("isColoringPage", JBool false); ("isWebViewPage", JBool false);
       ("useVideoSequence", JBool false); ("useImageSequence", JBool false)]
  ∧ (field "scrollWidth" body = JNum 0 →
       field "scrollWidth" (create_fields body) = JNum 100)
  ∧ ∃ b, field "coloringEndModalOnly" (create_fields body) = JBool b
         ∧ (b = false ↔ field "coloringEndModalOnly" body = JBool false).
Proof.
  split_and!.
  - unfold create_fields. cbv zeta.
    repeat match goal with
           | |- _ :: _ = _ :: _ => f_equal
           | |- (_, _) = (_, _) => f_equal
           end; try reflexivity;
      first [apply js_or_idem | apply not_false_idem].
  - repeat constructor; by apply js_or_truthy.
  - repeat constructor; apply js_or_falsy.
  - intros H0. change (field "scrollWidth" (create_fields body))
      with (js_or (field "scrollWidth" body) (JNum 100)). by rewrite H0.
  - change (field "coloringEndModalOnly" (create_fields body))
      with (not_false (field "coloringEndModalOnly" body)).
    destruct (field "coloringEndModalOnly" body) as [| |[]| | | |];
      first [by exists true | by exists false].
Qed.

Lemma create_fields_normal_witness :
  let body := [("scrollWidth", JNum 0); ("coloringEndModalOnly", JNull)] in
  field "scrollWidth" body = JNum 0
  ∧ field "scrollWidth" (create_fields body) = JNum 100.
Proof.
  split; [reflexivity|].
  apply (proj1 (proj2 (proj2 (proj2
    (create_fields_normal [("scrollWidth", JNum 0); ("coloringEndModalOnly", JNull)]))))).
  reflexivity.
Defined.

Example create_fields_samples :
  let fields := create_fields [("scrollOffsetY", JStr ""); ("isColoringPage", JNull);
                               ("useVideoSequence", JNum 1)] in
  field "scrollOffsetY" fields = JNum 0 ∧ field "isColoringPage" fields = JBool false
  ∧ field "useVideoSequence" fields = JNum 1
  ∧ field "pageNumber" fields = JUndefined.
Proof. cbv zeta. split_and!; reflexivity. Qed.

Lemma insert_new_unique_index (st : Store) id p :
  unique_index st → st !! id = None →
  index_conflict st id (bookId p) (pageNumber p) = false →
  unique_index (<[id := p]> st).
Proof.
  intros Hu Hid Hc. rewrite index_conflict_false in Hc.
  intros i j p1 p2 Hi Hj Hb Hn.
  apply lookup_insert_Some in Hi as [[<- <-]|[Hi' Hi]];
    apply lookup_insert_Some in Hj as [[<- <-]|[Hj' Hj]]; simpl in *.
  - done.
  - exfalso. eapply (Hc j p2); eauto.
  - exfalso. eapply (Hc i p1); eauto.
  - eauto.
Qed.

(** The three ways a creation can go. *)
Lemma create_page_cases new_Page new_id body (st : Store) :
  (new_Page (create_fields body) = None
   ∧ create_page new_Page new_id body st = (st, (400, CreateFailed ValidationError)))
  ∨ (∃ p, new_Page (create_fields body) = Some p
       ∧ (is_Some (st !! new_id)
          ∨ index_conflict st new_id (bookId p) (pageNumber p) = true)
       ∧ create_page new_Page new_id body st
         = (st, (400, CreateFailed (SaveRejected E11000))))
  ∨ (∃ p, new_Page (create_fields body) = Some p
       ∧ st !! new_id = None
       ∧ index_conflict st new_id (bookId p) (pageNumber p) = false
       ∧ create_page new_Page new_id body st
         = (<[new_id := p]> st, (201, CreatedPage new_id p))).
Proof.
  unfold create_page. destruct (new_Page (create_fields body)) as [p|]; [|by left].
  right. destruct (st !! new_id) as [d|] eqn:Hid.
  - left. exists p. rewrite bool_decide_eq_true_2 by eauto. simpl. eauto.
  - rewrite bool_decide_eq_false_2 by (by intros [? ?]). simpl.
    destruct (index_conflict st new_id (bookId p) (pageNumber p)) eqn:Hc.
    + left. exists p. eauto.
    + right. exists p. eauto.
Qed.

(** X12: whatever the body and the outcome, creating a page never changes
    or removes a stored page and keeps positions unique.  A 201 means that
    exactly the returned document was added under an identifier that was
    free; any other answer is a 400 and leaves the store as it was. *)
Theorem create_page_adds_one new_Page new_id body st :
  let out := create_page new_Page new_id body st in
  (∀ q d, st !! q = Some d → out.1 !! q = Some d)
  ∧ (unique_index st → unique_index out.1)
  ∧ (out.2.1 = 201 →
       ∃ p, out.2.2 = CreatedPage new_id p ∧ st !! new_id = None
            ∧ out.1 = <[new_id := p]> st)
  ∧ (out.2.1 ≠ 201 → out.2.1 = 400 ∧ out.1 = st).
Proof.
  cbv zeta.
  destruct (create_page_cases new_Page new_id body st)
    as [[_ ->]|[(p & _ & _ & ->)|(p & _ & Hid & Hc & ->)]]; simpl.
  - by split_and!.
  - by split_and!.
  - split_and!.
    + intros q d Hq. rewrite lookup_insert_ne; [done|]. intros <-. congruence.
    + intros Hu. by apply insert_new_unique_index.
    + intros _. by exists p.
    + by intros [].
Qed.

Lemma create_page_adds_one_witness :
  let out := create_page (λ _, Some (page idP 4 "d")) idX [] book3 in
  (∀ q d, book3 !! q = Some d → out.1 !! q = Some d)
  ∧ (unique_index book3 → unique_index out.1)
  ∧ (out.2.1 = 201 →
       ∃ p, out.2.2 = CreatedPage idX p ∧ book3 !! idX = None
            ∧ out.1 = <[idX := p]> book3)
  ∧ (out.2.1 ≠ 201 → out.2.1 = 400 ∧ out.1 = book3).
Proof. apply (create_page_adds_one (λ _, Some (page idP 4 "d")) idX [] book3). Defined.

(** X13: a page is never created at a position that a page of the same
    parent holds: the answer is a 400 for a duplicate key and the store is
    unchanged. *)
Theorem create_page_at_taken_position new_Page new_id body st p q d :
  new_Page (create_fields body) = Some p →
  st !! q = Some d → bookId d = bookId p → pageNumber d = pageNumber p →
  create_page new_Page new_id body st
  = (st, (400, CreateFailed (SaveRejected E11000))).
Proof.
  intros Hp Hq Hb Hn.
  destruct (create_page_cases new_Page new_id body st)
    as [[Hnone _]|[(p' & _ & _ & ->)|(p' & Hp' & Hid & Hc & _)]];
    [congruence|done|].
  simplify_eq. rewrite index_conflict_false in Hc.
  destruct (Hc q d Hq Hb); [|done]. intros ->. congruence.
Qed.

Lemma create_page_at_taken_position_witness :
  create_page (λ _, Some (page idP 2 "d")) idX [] book3
  = (book3, (400, CreateFailed (SaveRejected E11000))).
Proof.
  apply (create_page_at_taken_position (λ _, Some (page idP 2 "d")) idX [] book3
           (page idP 2 "d") idB (page idP 2 "b")); reflexivity.
Defined.

(** X14: deleting the page that a creation returned, by the identifier
    it was given (which is cast to itself), gives back the store the
    creation started from. *)
Theorem create_then_delete other new_Page new_id body st :
  cast_param other new_id = Some new_id →
  let created := create_page new_Page new_id body st in
  created.2.1 = 201 →
  delete_page other new_id created.1
  = (st, mkResponse 200 (Message "Page deleted")).
Proof.
  intros Hc. cbv zeta.
  destruct (create_page_cases new_Page new_id body st)
    as [[_ ->]|[(p & _ & _ & ->)|(p & _ & Hid & _ & ->)]]; simpl; [done..|].
  intros _. unfold delete_page. rewrite Hc, lookup_insert_eq. simpl.
  by rewrite delete_insert_id.
Qed.

Lemma create_then_delete_witness :
  let created := create_page (λ _, Some (page idP 4 "d")) idX [] book3 in
  delete_page hex_only idX created.1
  = (book3, mkResponse 200 (Message "Page deleted")).
Proof.
  apply (create_then_delete hex_only (λ _, Some (page idP 4 "d")) idX [] book3);
    by_evaluation.
Defined.

(** X15: after a 201 the listing of the new page's parent is the listing
    before with the new page added, and the listing of any other parent
    has the pages it had. *)
Theorem create_then_list new_Page new_id body st bid :
  let created := create_page new_Page new_id body st in
  created.2.1 = 201 →
  ∃ p, created.2.2 = CreatedPage new_id p
    ∧ find_sorted bid created.1
      ≡ₚ (if decide (bookId p = bid) then [(new_id, p)] else [])
         ++ find_sorted bid st.
Proof.
  cbv zeta.
  destruct (create_page_cases new_Page new_id body st)
    as [[_ ->]|[(p & _ & _ & ->)|(p & _ & Hid & _ & ->)]]; simpl; [done..|].
  intros _. exists p. split; [done|].
  apply NoDup_Permutation.
  - apply find_sorted_NoDup.
  - apply NoDup_app. split_and!.
    + destruct (decide (bookId p = bid)); [apply NoDup_singleton|apply NoDup_nil_2].
    + intros e He Hin. destruct (decide (bookId p = bid)); [|by apply elem_of_nil in He].
      apply list_elem_of_singleton in He as ->.
      apply find_sorted_elem in Hin as [? _]. congruence.
    + apply find_sorted_NoDup.
  - intros [q d]. rewrite elem_of_app, !find_sorted_elem, lookup_insert_Some.
    destruct (decide (bookId p = bid)) as [Hb|Hb].
    + rewrite list_elem_of_singleton. split.
      * intros [[[<- <-]|[Hne Hq]] Hbd]; [by left|by right].
      * intros [[= -> ->]|[Hq Hbd]]; [by split; [left|]|].
        split; [|done]. right. split; [|done]. intros <-. congruence.
    + split.
      * intros [[[<- <-]|[Hne Hq]] Hbd]; [done|by right].
      * intros [He|[Hq Hbd]]; [by apply elem_of_nil in He|].
        split; [|done]. right. split; [|done]. intros <-. congruence.
Qed.

Lemma create_then_list_witness :
  let created := create_page (λ _, Some (page idP 4 "d")) idX [] book3 in
  ∃ p, created.2.2 = CreatedPage idX p
    ∧ find_sorted idP created.1
      ≡ₚ (if decide (bookId p = idP) then [(idX, p)] else [])
         ++ find_sorted idP book3.
Proof.
  apply (create_then_list (λ _, Some (page idP 4 "d")) idX [] book3 idP).
  by_evaluation.
Defined.

(** * Identifiers in either case, and values that have no string *)

(** ** Identifiers in either case of the letters *)

Lemma lower_hex_idem c : lower_hex (lower_hex c) = lower_hex c.
Proof. by destruct c as [[] [] [] [] [] [] [] []]. Qed.

Lemma is_hex_digit_lower c : is_hex_digit (lower_hex c) = is_hex_digit c.
Proof. by destruct c as [[] [] [] [] [] [] [] []]. Qed.

Lemma castObjectId_idem s : castObjectId (castObjectId s) = castObjectId s.
Proof. induction s as [|c s IH]; [done|]. simpl. by rewrite lower_hex_idem, IH. Qed.

Lemma castObjectId_length s : String.length (castObjectId s) = String.length s.
Proof. induction s as [|c s IH]; [done|]. simpl. by rewrite IH. Qed.

Lemma castObjectId_all_hex s : all_hex (castObjectId s) = all_hex s.
Proof. induction s as [|c s IH]; [done|]. simpl. by rewrite is_hex_digit_lower, IH. Qed.

Lemma invalid_id_cast s : invalid_id (castObjectId s) = invalid_id s.
Proof.
  unfold invalid_id, hex24_test.
  rewrite castObjectId_length, castObjectId_all_hex. by destruct s.
Qed.

(** A query sees the strings of its filter through their casts only. *)
Lemma update_page_cast ph id id' bid bid' v :
  castObjectId id = castObjectId id' → castObjectId bid = castObjectId bid' →
  update_page ph id bid v = update_page ph id' bid' v.
Proof. intros Hid Hbid. unfold update_page. by rewrite Hid, Hbid. Qed.

Lemma phase1_cast bid bid' i orders w :
  castObjectId bid = castObjectId bid' →
  phase1 bid i (valid_of <$> orders) w
  = phase1 bid' i (valid_of <$> phase2_writes orders) w.
Proof.
  intros Hbid. revert i w. induction orders as [|[p v] orders IH]; intros i w; [done|].
  change (phase2_writes ((p, v) :: orders))
    with ((castObjectId p, v) :: phase2_writes orders).
  rewrite !fmap_cons. cbn [phase1 valid_of pageId fst]. unfold bind.
  rewrite (update_page_cast _ p (castObjectId p) bid bid')
    by by rewrite ?castObjectId_idem.
  destruct (update_page _ _ _ _ w) as [w1 [e|r]]; [done|]. apply IH.
Qed.

Lemma phase2_cast cast bid bid' orders c w :
  castObjectId bid = castObjectId bid' →
  phase2 cast bid (valid_of <$> orders) c w
  = phase2 cast bid' (valid_of <$> phase2_writes orders) c w.
Proof.
  intros Hbid. revert c w. induction orders as [|[p v] orders IH]; intros c w; [done|].
  change (phase2_writes ((p, v) :: orders))
    with ((castObjectId p, v) :: phase2_writes orders).
  rewrite !fmap_cons.
  cbn [phase2 valid_of pageId newPageNumber fst snd set_final cast_pageNumber].
  unfold bind.
  rewrite (update_page_cast _ p (castObjectId p) bid bid')
    by by rewrite ?castObjectId_idem.
  destruct (update_page _ _ _ _ w) as [w1 [e|r]]; [done|]. apply IH.
Qed.

Lemma bind_congr {A B} (m m' : M A) (k k' : A → M B) w :
  m w = m' w → (∀ a w1, k a w1 = k' a w1) → bind m k w = bind m' k' w.
Proof.
  intros Hm Hk. unfold bind. rewrite Hm.
  destruct (m' w) as [w1 [e|a]]; [done|apply Hk].
Qed.

Lemma after_validation_cast cast bid bid' orders w :
  castObjectId bid = castObjectId bid' →
  after_validation cast bid (valid_of <$> orders) w
  = after_validation cast bid' (valid_of <$> phase2_writes orders) w.
Proof.
  intros Hbid. unfold after_validation.
  assert (length (valid_of <$> phase2_writes orders) = length (valid_of <$> orders))
    as -> by (unfold phase2_writes; by rewrite !length_fmap).
  apply bind_congr; [done|]. intros _ w1.
  apply bind_congr; [by apply phase1_cast|]. intros _ w2.
  apply bind_congr; [done|]. intros _ w3.
  apply bind_congr; [by apply phase2_cast|]. intros c w4.
  apply bind_congr; [done|]. intros _ w5.
  apply bind_congr; [unfold read_pages; by rewrite Hbid|]. done.
Qed.

(** The entries that the validation loop keeps of a list of identifiers
    and targets. *)
Lemma validPageOrders_entries orders :
  validPageOrders (order_entry <$> orders)
  = inr (valid_of <$> filter (λ o : string * Z, invalid_id o.1 = false) orders).
Proof.
  induction orders as [|[p v] orders IH]; [done|].
  unfold validPageOrders. rewrite fmap_cons, validate_cons.
  change (get_prop (order_entry (p, v)) "pageId") with (Some (JStr p)).
  change (get_prop (order_entry (p, v)) "newPageNumber") with (Some (JNum v)).
  cbv iota beta. rewrite id_string_JStr. cbv iota beta.
  rewrite filter_cons. simpl. destruct (invalid_id p) eqn:Hp.
  - rewrite validate_run. cbn [snd]. rewrite IH.
    by rewrite decide_False by done.
  - rewrite validate_run. cbn [snd]. rewrite IH.
    by rewrite decide_True by done.
Qed.

Lemma phase2_writes_filter orders :
  filter (λ o : string * Z, invalid_id o.1 = false) (phase2_writes orders)
  = phase2_writes (filter (λ o : string * Z, invalid_id o.1 = false) orders).
Proof.
  induction orders as [|[p v] orders IH]; [done|].
  change (phase2_writes ((p, v) :: orders))
    with ((castObjectId p, v) :: phase2_writes orders).
  rewrite !filter_cons. simpl. rewrite invalid_id_cast.
  destruct (decide (invalid_id p = false)); [|done].
  change (phase2_writes ((p, v) :: filter _ orders))
    with ((castObjectId p, v) :: phase2_writes (filter (λ o : string * Z, invalid_id o.1 = false) orders)).
  by rewrite IH.
Qed.

(** X16: the letters of an identifier may be written in either case.  A
    request that names the book and the pages in whatever case is
    answered, writes and leaves the store exactly as the request that
    names them in lower case, the way the collection keeps them. *)
Theorem reorder_ignores_letter_case cast bid orders w :
  let out := reorder cast (request bid (order_entry <$> orders)) w in
  let out' := reorder cast
                (request (castObjectId bid) (order_entry <$> phase2_writes orders)) w in
  out.2 = out'.2 ∧ db out.1 = db out'.1 ∧ events out.1 = events out'.1.
Proof.
  cbv zeta.
  destruct (invalid_id bid) eqn:Hbid.
  - assert (∀ s es, invalid_id s = true → invalid_request (request s es)) as Hbad.
    { intros s es Hs. right; left. exists s. split; [apply id_string_JStr|done]. }
    rewrite !reorder_guards by (apply Hbad; by rewrite ?invalid_id_cast).
    unfold lacks_fields. simpl. by destruct bid.
  - rewrite (reorder_valid cast _ bid (order_entry <$> orders) w)
      by by apply request_well_formed.
    rewrite (reorder_valid cast _ (castObjectId bid)
               (order_entry <$> phase2_writes orders) w)
      by (apply request_well_formed; by rewrite invalid_id_cast).
    rewrite !validPageOrders_entries, phase2_writes_filter.
    rewrite <- (after_validation_cast cast bid (castObjectId bid))
      by by rewrite castObjectId_idem.
    apply settle_same.
    + by apply (tidy_same_store _ _ _ (tidy_after_validation cast _ _)).
    + by apply (tidy_same_store _ _ _ (tidy_after_validation cast _ _)).
    + by apply (tidy_same_store _ _ _ (tidy_after_validation cast _ _)).
Qed.

Lemma reorder_ignores_letter_case_witness :
  let out := reorder strict_cast
               (request idP_upper [entry idA_upper 3; entry idB_upper 1; entry idC 2])
               (start book3) in
  let out' := reorder strict_cast
                (request idP [entry idA 3; entry idB 1; entry idC 2]) (start book3) in
  out.2 = out'.2 ∧ db out.1 = db out'.1 ∧ events out.1 = events out'.1.
Proof.
  apply (reorder_ignores_letter_case strict_cast idP_upper
           [(idA_upper, 3%Z); (idB_upper, 1%Z); (idC, 2%Z)] (start book3)).
Defined.

(** ** Values that have no string *)

Lemma validPageOrders_throws items item :
  item ∈ items →
  get_prop item "pageId" = None
  ∨ (∃ raw, get_prop item "pageId" = Some raw ∧ id_string raw = None) →
  validPageOrders items = inl TypeError.
Proof.
  intros Hin Hthrows.
  induction items as [|x items IH]; [by apply elem_of_nil in Hin|].
  unfold validPageOrders. rewrite validate_cons.
  destruct (get_prop x "pageId") as [raw|] eqn:Hraw; [|done].
  destruct (id_string raw) as [s|] eqn:Hs; [|done].
  assert (validPageOrders items = inl TypeError) as Hrest.
  { apply elem_of_cons in Hin as [->|Hin]; [|by apply IH].
    destruct Hthrows as [?|(raw' & ? & ?)]; congruence. }
  destruct (invalid_id s).
  - rewrite validate_run. simpl. by rewrite Hrest.
  - destruct (get_prop x "newPageNumber") as [n|]; [|done].
    rewrite validate_run. simpl. by rewrite Hrest.
Qed.

(** X17: an entry whose [pageId] cannot be converted to a string makes the
    whole request fail, wherever it stands among the entries: the answer
    is a 500 for a TypeError and no write was issued. *)
Theorem reorder_unconvertible_entry_fails cast body bid items item raw w :
  well_formed_request body bid items → item ∈ items →
  get_prop item "pageId" = Some raw → id_string raw = None →
  let out := reorder cast body w in
  out.2 = mkResponse 500 (Failure TypeError)
  ∧ db out.1 = db w ∧ events out.1 = events w.
Proof.
  intros Hwf Hin Hraw Hs. cbv zeta.
  rewrite (reorder_valid cast body bid items w Hwf).
  rewrite (validPageOrders_throws items item Hin) by eauto. done.
Qed.

Lemma reorder_unconvertible_entry_fails_witness :
  let out := reorder strict_cast body_with_unprintable (start book3) in
  out.2 = mkResponse 500 (Failure TypeError)
  ∧ db out.1 = db (start book3) ∧ events out.1 = events (start book3).
Proof.
  apply (reorder_unconvertible_entry_fails strict_cast body_with_unprintable idP
           ([entry idA 3]
            ++ JObj [("pageId", unprintable); ("newPageNumber", JNum 4)]
               :: [entry idB 1; entry idC 2])
           (JObj [("pageId", unprintable); ("newPageNumber", JNum 4)])
           unprintable (start book3)).
  - split_and!; by_evaluation.
  - set_solver.
  - reflexivity.
  - reflexivity.
Defined.

(** X18: a [bookId] that is truthy but cannot be converted to a string,
    sent with an array for [pageOrder], is not answered by a guard: the
    conversion throws, the answer is a 500 for a TypeError, and no write
    was issued. *)
Theorem reorder_unconvertible_bookId_fails cast body w :
  truthy (field "bookId" body) = true → isArray (field "pageOrder" body) = true →
  id_string (field "bookId" body) = None →
  let out := reorder cast body w in
  out.2 = mkResponse 500 (Failure TypeError)
  ∧ db out.1 = db w ∧ events out.1 = events w.
Proof.
  intros Hb Harr Hs. cbv zeta. rewrite reorder_unprintable; [done|].
  split; [|done]. unfold lacks_fields. rewrite Hb, Harr.
  by destruct (field "pageOrder" body).
Qed.

Lemma reorder_unconvertible_bookId_fails_witness :
  let out := reorder strict_cast
               [("bookId", JObj [("_id", unprintable)]); ("pageOrder", JArr [entry idA 2])]
               (start book3) in
  out.2 = mkResponse 500 (Failure TypeError)
  ∧ db out.1 = db (start book3) ∧ events out.1 = events (start book3).
Proof.
  apply (reorder_unconvertible_bookId_fails strict_cast
           [("bookId", JObj [("_id", unprintable)]); ("pageOrder", JArr [entry idA 2])]
           (start book3)); reflexivity.
Defined.
